(** * SWAN: migration, canonical equivalence and schema degradation

    A shallow embedding of [duckdb_pipeline.py] and [preprocess_dbs.py].

    Python text is modelled as [string] (code points below 256, with the
    ASCII reading of [str.strip], [str.isdigit], [str.lower] and of the
    regular-expression classes [\s], [\w] and [\b]); Python [int] as [Z];
    Python [float] as the binary64 instance of the Standard Library's
    [spec_float]; dictionaries used as maps as [gmap]; sets as [gset];
    exceptions as an explicit result type.  The database engines, the
    dialect transpiler and the file system are outside the repository:
    they appear as small explicit models or as section variables, each
    described where it is introduced. *)

From Stdlib Require Import ZArith String Ascii List Bool Lia Permutation.
From Stdlib Require Import Floats.SpecFloat.
From stdpp Require Import base option list gmap strings pretty sorting.

Open Scope string_scope.
#[global] Set Warnings "-register-all,-notation-incompatible-prefix".

(** ** Results that may raise *)

Inductive pyexn : Type :=
| OverflowError
| TypeError
| OSError
| DatabaseError
| SystemExit (msg : string).

Inductive result (A : Type) : Type :=
| Ok (a : A)
| Raise (e : pyexn).
Arguments Ok {A} a.
Arguments Raise {A} e.

#[global] Instance result_ret : MRet result := λ A a, Ok a.
#[global] Instance result_bind : MBind result := λ A B k r,
  match r with
  | Ok a => k a
  | Raise e => Raise e
  end.

(** ** Python string methods (ASCII reading) *)

Module PyStr.

Definition code (c : ascii) : nat := nat_of_ascii c.

Definition between (lo hi : nat) (c : ascii) : bool :=
  (lo <=? code c)%nat && (code c <=? hi)%nat.

(** [str.isspace] on ASCII: TAB..CR, FS..US and the blank. *)
Definition is_space (c : ascii) : bool := between 9 13 c || between 28 32 c.
Definition is_digit (c : ascii) : bool := between 48 57 c.
Definition is_upper (c : ascii) : bool := between 65 90 c.
Definition is_lower (c : ascii) : bool := between 97 122 c.
Definition is_alpha (c : ascii) : bool := is_upper c || is_lower c.
Definition is_alnum (c : ascii) : bool := is_alpha c || is_digit c.
(** The class [\w] of [re]: letters, digits and the underscore. *)
Definition is_word (c : ascii) : bool := is_alnum c || (code c =? 95)%nat.

Definition lower_char (c : ascii) : ascii :=
  if is_upper c then ascii_of_nat (code c + 32) else c.

Fixpoint lower (s : string) : string :=
  match s with
  | EmptyString => EmptyString
  | String c s' => String (lower_char c) (lower s')
  end.

Definition upper_char (c : ascii) : ascii :=
  if is_lower c then ascii_of_nat (code c - 32) else c.

Fixpoint upper (s : string) : string :=
  match s with
  | EmptyString => EmptyString
  | String c s' => String (upper_char c) (upper s')
  end.

Fixpoint lstrip_by (p : ascii → bool) (s : string) : string :=
  match s with
  | EmptyString => EmptyString
  | String c s' => if p c then lstrip_by p s' else s
  end.

Definition rstrip_by (p : ascii → bool) (s : string) : string :=
  String.rev (lstrip_by p (String.rev s)).

(** [s.strip()] *)
Definition strip (s : string) : string := rstrip_by is_space (lstrip_by is_space s).

(** [s.strip(chars)] for a one-character [chars]. *)
Definition strip_char (q : ascii) (s : string) : string :=
  rstrip_by (Ascii.eqb q) (lstrip_by (Ascii.eqb q) s).

Fixpoint all_chars (p : ascii → bool) (s : string) : bool :=
  match s with
  | EmptyString => true
  | String c s' => p c && all_chars p s'
  end.

(** [s.isdigit()]: non-empty and digits only. *)
Definition isdigit (s : string) : bool :=
  match s with
  | EmptyString => false
  | _ => all_chars is_digit s
  end.

(** [s.startswith(p)] *)
Definition startswith (p s : string) : bool := String.prefix p s.

(** [sub in s] *)
Fixpoint contains (sub s : string) : bool :=
  String.prefix sub s ||
  match s with
  | EmptyString => false
  | String _ s' => contains sub s'
  end.

(** [s[1:]] *)
Definition tail (s : string) : string :=
  match s with
  | EmptyString => EmptyString
  | String _ s' => s'
  end.

(** [s.replace(old, new)] for a non-empty [old]: the occurrences are taken
    from the left and do not overlap.  [skip] counts the characters of an
    occurrence that are still to be dropped. *)
Fixpoint replace_from (old new : string) (skip : nat) (s : string) : string :=
  match s with
  | EmptyString => EmptyString
  | String c s' =>
      match skip with
      | S k => replace_from old new k s'
      | O =>
          if String.prefix old s
          then new +:+ replace_from old new (String.length old - 1) s'
          else String c (replace_from old new 0 s')
      end
  end.

Definition replace (old new s : string) : string := replace_from old new 0 s.

(** [s.split(sep, 1)] for a one-character separator that occurs in [s]. *)
Fixpoint split_once (sep : ascii) (s : string) : option (string * string) :=
  match s with
  | EmptyString => None
  | String c s' =>
      if Ascii.eqb c sep then Some (EmptyString, s')
      else match split_once sep s' with
           | Some (a, b) => Some (String c a, b)
           | None => None
           end
  end.

(** The decimal value of a string of digits, [int(s)] on such a string. *)
Definition digit_val (c : ascii) : Z := Z.of_nat (code c - 48).

Fixpoint digits_val (acc : Z) (s : string) : Z :=
  match s with
  | EmptyString => acc
  | String c s' => digits_val (10 * acc + digit_val c) s'
  end.

(** [s.endswith(suffix)] *)
Definition endswith (suffix s : string) : bool :=
  String.prefix (String.rev suffix) (String.rev s).

End PyStr.

(** ** Python floats: IEEE 754 binary64 *)

Module PyFloat.

#[local] Open Scope Z_scope.

Definition prec : Z := 53.
Definition emax : Z := 1024.

Abbreviation float := spec_float.

Definition nan : float := S754_nan.
Definition zero : float := S754_zero false.

Definition is_nan (f : float) : bool :=
  match f with S754_nan => true | _ => false end.
Definition is_inf (f : float) : bool :=
  match f with S754_infinity _ => true | _ => false end.

(** The binary64 value nearest to an integer (ties to even). *)
Definition round_Z (z : Z) : float := binary_normalize prec emax z 0 false.

(** [float(n)] for an [int]: [None] stands for [OverflowError]
    ("int too large to convert to float"). *)
Definition of_int (z : Z) : option float :=
  let f := round_Z z in if is_inf f then None else Some f.

(** The binary64 value nearest to [m * 10^e], for [0 <= m]: what
    [float] makes of a decimal numeral (it never raises: a numeral that
    is too large becomes an infinity). *)
Definition of_decimal (neg : bool) (m : Z) (e : Z) : float :=
  match m with
  | Zpos p =>
      if (0 <=? e)%Z then binary_round prec emax neg (Z.to_pos (Zpos p * 10 ^ e)) 0
      else
        let '(q, e', l) := SFdiv_core_binary prec emax (Zpos p) 0 (10 ^ (- e)) 0 in
        binary_round_aux prec emax neg q e' l
  | _ => S754_zero neg
  end.

Definition eqb (a b : float) : bool := SFeqb a b.
Definition leb (a b : float) : bool := SFleb a b.
Definition sub (a b : float) : float := SFsub prec emax a b.
Definition mul (a b : float) : float := SFmul prec emax a b.
Definition fabs (a : float) : float := SFabs a.

(** [math.isclose(a, b, rel_tol=rel_tol, abs_tol=abs_tol)] as CPython
    computes it. *)
Definition isclose (a b rel_tol abs_tol : float) : bool :=
  if eqb a b then true
  else if is_inf a || is_inf b then false
  else
    let diff := fabs (sub b a) in
    leb diff (fabs (mul rel_tol b)) || leb diff (fabs (mul rel_tol a)) || leb diff abs_tol.

(** The literal [1e-9]. *)
Definition tol : float := of_decimal false 1 (-9).

(** *** Parsing: [float(s)] on text *)

Definition lower_eq (s t : string) : bool := String.eqb (PyStr.lower s) t.

(** A maximal run of digits and what follows it. *)
Fixpoint span_digits (s : string) : string * string :=
  match s with
  | String c s' =>
      if PyStr.is_digit c then let '(d, r) := span_digits s' in (String c d, r)
      else (EmptyString, s)
  | EmptyString => (EmptyString, EmptyString)
  end.

(** Underscores may stand between two digits only; they are then dropped. *)
Fixpoint strip_underscores (prev : option ascii) (s : string) : option string :=
  match s with
  | EmptyString =>
      match prev with
      | Some "_"%char => None
      | _ => Some EmptyString
      end
  | String c s' =>
      if Ascii.eqb c "_"
      then match prev with
           | Some p => if PyStr.is_digit p then strip_underscores (Some c) s' else None
           | None => None
           end
      else
        match prev with
        | Some "_"%char =>
            if PyStr.is_digit c then String c <$> strip_underscores (Some c) s' else None
        | _ => String c <$> strip_underscores (Some c) s'
        end
  end.

Definition split_sign (s : string) : bool * string :=
  match s with
  | String "-" s' => (true, s')
  | String "+" s' => (false, s')
  | _ => (false, s)
  end.

(** [digits [. digits] [(e|E) [sign] digits]] with a digit before or after
    the point. *)
Definition parse_numeral (neg : bool) (s : string) : option float :=
  let '(ip, r1) := span_digits s in
  let '(fp, r2) :=
    match r1 with
    | String "." r => span_digits r
    | _ => (EmptyString, r1)
    end in
  if (String.length ip + String.length fp =? 0)%nat then None
  else
    let mant := PyStr.digits_val 0 (ip +:+ fp) in
    let scale := - Z.of_nat (String.length fp) in
    match r2 with
    | EmptyString => Some (of_decimal neg mant scale)
    | String c r3 =>
        if Ascii.eqb c "e" || Ascii.eqb c "E" then
          let '(eneg, r4) := split_sign r3 in
          if PyStr.isdigit r4 then
            let ex := PyStr.digits_val 0 r4 in
            Some (of_decimal neg mant (scale + (if eneg then - ex else ex)))
          else None
        else None
    end.

(** [float(s)]: [None] stands for [ValueError]. *)
Definition of_string (s : string) : option float :=
  s1 ← strip_underscores None (PyStr.strip s);
  let '(neg, body) := split_sign s1 in
  if lower_eq body "inf" || lower_eq body "infinity" then Some (S754_infinity neg)
  else if lower_eq body "nan" then Some S754_nan
  else parse_numeral neg body.

(** *** Exact values, for [==] between numbers of different types *)

(** A finite float as a fraction [n / d]. *)
Definition to_frac (f : float) : option (Z * positive) :=
  match f with
  | S754_zero _ => Some (0%Z, 1%positive)
  | S754_finite s m e =>
      let n := if s then Zneg m else Zpos m in
      match e with
      | Zneg k => Some (n, (2 ^ k)%positive)
      | _ => Some ((n * 2 ^ e)%Z, 1%positive)
      end
  | _ => None
  end.

End PyFloat.

(** ** Python values and the builtins the pipeline applies to them *)

Module Py.

#[local] Open Scope Z_scope.

(** [decimal.Decimal]: [coef * 10^exp] with [0 <= coef], an infinity or a
    quiet NaN (the engines return no signalling NaN). *)
Inductive decimal : Type :=
| DFinite (neg : bool) (coef : Z) (exp : Z)
| DInf (neg : bool)
| DNaN.

(** What [getattr(x, "isoformat", None)] finds on an object that is none of
    the builtin types below: nothing callable, a method that raises, or a
    method that returns text (dates, times, timestamps). *)
Inductive iso_attr : Type :=
| NoIso
| IsoRaises
| IsoReturns (s : string).

Inductive pyval : Type :=
| PNone
| PBool (b : bool)
| PInt (z : Z)
| PFloat (f : PyFloat.float)
| PStr (s : string)
| PDecimal (d : decimal)
| PBytes (raw : list ascii)          (* bytes, bytearray, memoryview *)
| PTuple (l : list pyval)
| PList (l : list pyval)
| PDict (items : list (string * pyval))
| PObj (ty : string) (iso : iso_attr) (rp : string).

(** [float(d)] for a [Decimal]. *)
Definition decimal_to_float (d : decimal) : PyFloat.float :=
  match d with
  | DFinite neg c e => PyFloat.of_decimal neg c e
  | DInf neg => S754_infinity neg
  | DNaN => S754_nan
  end.

(** *** Equality ([==]) *)

(** The exact value of a number: Python compares numbers of different
    types by value, without rounding. *)
Inductive exact : Type :=
| XFin (n : Z) (d : positive)
| XInf (neg : bool)
| XNaN.

Definition exact_of_float (f : PyFloat.float) : exact :=
  match f with
  | S754_nan => XNaN
  | S754_infinity s => XInf s
  | _ => match PyFloat.to_frac f with
         | Some (n, d) => XFin n d
         | None => XNaN
         end
  end.

Definition exact_of_decimal (d : decimal) : exact :=
  match d with
  | DFinite neg c e =>
      let n := if neg then - c else c in
      if 0 <=? e then XFin (n * 10 ^ e) 1 else XFin n (Z.to_pos (10 ^ (- e)))
  | DInf s => XInf s
  | DNaN => XNaN
  end.

Definition exact_eqb (a b : exact) : bool :=
  match a, b with
  | XFin n d, XFin n' d' => n * Zpos d' =? n' * Zpos d
  | XInf s, XInf s' => Bool.eqb s s'
  | _, _ => false
  end.

Definition as_number (v : pyval) : option exact :=
  match v with
  | PBool b => Some (XFin (if b then 1 else 0) 1)
  | PInt z => Some (XFin z 1)
  | PFloat f => Some (exact_of_float f)
  | PDecimal d => Some (exact_of_decimal d)
  | _ => None
  end.

Definition iso_eqb (a b : iso_attr) : bool :=
  match a, b with
  | NoIso, NoIso | IsoRaises, IsoRaises => true
  | IsoReturns s, IsoReturns t => String.eqb s t
  | _, _ => false
  end.

Fixpoint dict_get {A} (items : list (string * A)) (k : string) : option A :=
  match items with
  | [] => None
  | (k', v) :: rest => if String.eqb k' k then Some v else dict_get rest k
  end.

(** [a == b].  Containers compare element by element (the identity
    shortcut of container comparison is not modelled: the two operands
    are distinct objects); an object of another type is identified by
    its type name and its [repr]. *)
Fixpoint py_eq (a b : pyval) {struct a} : bool :=
  match a, b with
  | PNone, PNone => true
  | PStr s, PStr t => String.eqb s t
  | PBytes x, PBytes y => bool_decide (x = y)
  | PTuple x, PTuple y | PList x, PList y =>
      (fix go (x y : list pyval) {struct x} : bool :=
         match x, y with
         | [], [] => true
         | u :: x', v :: y' => py_eq u v && go x' y'
         | _, _ => false
         end) x y
  | PDict x, PDict y =>
      (length x =? length y)%nat &&
      (fix go (x : list (string * pyval)) {struct x} : bool :=
         match x with
         | [] => true
         | (k, u) :: x' =>
             match dict_get y k with
             | Some v => py_eq u v && go x'
             | None => false
             end
         end) x
  | PObj ty iso rp, PObj ty' iso' rp' =>
      String.eqb ty ty' && iso_eqb iso iso' && String.eqb rp rp'
  | _, _ =>
      match as_number a, as_number b with
      | Some n, Some m => exact_eqb n m
      | _, _ => false
      end
  end.

(** [type(x).__name__] *)
Definition type_name (x : pyval) : string :=
  match x with
  | PNone => "NoneType"
  | PBool _ => "bool"
  | PInt _ => "int"
  | PFloat _ => "float"
  | PStr _ => "str"
  | PDecimal _ => "Decimal"
  | PBytes _ => "bytes"
  | PTuple _ => "tuple"
  | PList _ => "list"
  | PDict _ => "dict"
  | PObj ty _ _ => ty
  end.

(** *** [base64.b64encode] *)

Definition b64_alphabet : list ascii :=
  list_ascii_of_string "ABCDEFGHIJKLMNOPQRSTUVWXYZabcdefghijklmnopqrstuvwxyz0123456789+/".

Definition b64_char (n : N) : ascii := nth (N.to_nat (n mod 64)) b64_alphabet "="%char.

Definition byte_val (c : ascii) : N := N_of_ascii c.

Fixpoint b64encode (raw : list ascii) : string :=
  match raw with
  | [] => EmptyString
  | [a] =>
      let n := (byte_val a * 65536)%N in
      String (b64_char (n / 262144)) (String (b64_char (n / 4096)) "==")
  | [a; b] =>
      let n := (byte_val a * 65536 + byte_val b * 256)%N in
      String (b64_char (n / 262144)) (String (b64_char (n / 4096))
        (String (b64_char (n / 64)) "="))
  | a :: b :: c :: rest =>
      let n := (byte_val a * 65536 + byte_val b * 256 + byte_val c)%N in
      String (b64_char (n / 262144)) (String (b64_char (n / 4096))
        (String (b64_char (n / 64)) (String (b64_char n) (b64encode rest))))
  end.

(** *** [json.dumps(x, sort_keys=True, ensure_ascii=False, separators=(",", ":"))] *)

Definition dquote : ascii := ascii_of_nat 34.
Definition backslash : ascii := ascii_of_nat 92.

Definition hex_digit (n : nat) : ascii :=
  nth n (list_ascii_of_string "0123456789abcdef") "0"%char.

Definition json_escape_char (c : ascii) : string :=
  let n := PyStr.code c in
  if (n =? 34)%nat then String backslash (String dquote "")
  else if (n =? 92)%nat then String backslash (String backslash "")
  else if (n =? 8)%nat then String backslash "b"
  else if (n =? 12)%nat then String backslash "f"
  else if (n =? 10)%nat then String backslash "n"
  else if (n =? 13)%nat then String backslash "r"
  else if (n =? 9)%nat then String backslash "t"
  else if (n <? 32)%nat
       then String backslash ("u00" +:+ String (hex_digit (n / 16)) (String (hex_digit (n mod 16)) ""))
  else String c "".

Fixpoint json_escape (s : string) : string :=
  match s with
  | EmptyString => EmptyString
  | String c s' => json_escape_char c +:+ json_escape s'
  end.

Definition json_string (s : string) : string :=
  String dquote (json_escape s +:+ String dquote "").

Fixpoint join (sep : string) (l : list string) : string :=
  match l with
  | [] => EmptyString
  | [x] => x
  | x :: l' => x +:+ sep +:+ join sep l'
  end.

Fixpoint insert_item {A} (x : string * A) (l : list (string * A)) : list (string * A) :=
  match l with
  | [] => [x]
  | y :: l' => if String.leb x.1 y.1 then x :: l else y :: insert_item x l'
  end.

(** [sorted(l, key=fst)]: a stable sort on the keys; the items of a
    dictionary come out in the order of their keys. *)
Definition sort_items {A} (l : list (string * A)) : list (string * A) :=
  foldr insert_item [] l.

Section Builtins.

(** The builtin [repr], which the repository calls and does not define. *)
Variable repr : pyval → string.

Definition json_float (f : PyFloat.float) : string :=
  match f with
  | S754_nan => "NaN"
  | S754_infinity false => "Infinity"
  | S754_infinity true => "-Infinity"
  | _ => repr (PFloat f)
  end.

(** [None] stands for the [TypeError] of a value that is not JSON
    serializable. *)
Fixpoint json_dumps (x : pyval) : option string :=
  match x with
  | PNone => Some "null"
  | PBool b => Some (if b then "true" else "false")
  | PInt z => Some (pretty z)
  | PFloat f => Some (json_float f)
  | PStr s => Some (json_string s)
  | PTuple l | PList l =>
      items ← (fix go (l : list pyval) : option (list string) :=
                 match l with
                 | [] => Some []
                 | v :: l' => s ← json_dumps v; r ← go l'; Some (s :: r)
                 end) l;
      Some ("[" +:+ join "," items +:+ "]")
  | PDict d =>
      items ← (fix go (d : list (string * pyval)) : option (list (string * string)) :=
                 match d with
                 | [] => Some []
                 | (k, v) :: d' =>
                     s ← json_dumps v; r ← go d';
                     Some ((k, json_string k +:+ ":" +:+ s) :: r)
                 end) d;
      Some ("{" +:+ join "," (snd <$> sort_items items) +:+ "}")
  | PDecimal _ | PBytes _ | PObj _ _ _ => None
  end.

End Builtins.

(** [collections.Counter(keys)] *)
Definition counter_add (c : gmap string nat) (k : string) : gmap string nat :=
  <[k := S (default 0%nat (c !! k))]> c.

Definition Counter (keys : list string) : gmap string nat := foldl counter_add ∅ keys.



End Py.

(** ** Python's [re]: a backtracking matcher

    The repository's patterns use character classes, concatenation,
    alternation, greedy and lazy repetition, capturing groups, [\b] and
    [re.IGNORECASE].  The matcher tries alternatives in Python's order
    (leftmost match, first alternative first, a greedy repetition longest
    first), so that it finds the match [re] finds. *)

Module Re.

Inductive regex : Type :=
| Eps
| Chr (p : ascii → bool)
| Seq (r1 r2 : regex)
| Alt (r1 r2 : regex)
| Star (greedy : bool) (r : regex)
| Group (n : nat) (r : regex)
| WordB.

(** Captured groups, the latest capture of a group first. *)
Definition caps : Type := list (nat * string).

Fixpoint group (c : caps) (n : nat) : option string :=
  match c with
  | [] => None
  | (k, v) :: c' => if (k =? n)%nat then Some v else group c' n
  end.

Fixpoint take (n : nat) (s : string) : string :=
  match n, s with
  | S n', String c s' => String c (take n' s')
  | _, _ => EmptyString
  end.

(** The text between a position and a later one, both given by what
    remains of the input. *)
Definition consumed (s s' : string) : string :=
  take (String.length s - String.length s') s.

Definition word_before (prev : option ascii) : bool :=
  match prev with Some c => PyStr.is_word c | None => false end.

Definition word_at (s : string) : bool :=
  match s with String c _ => PyStr.is_word c | EmptyString => false end.

(** [run r prev s c k]: match [r] at the head of [s] ([prev] is the character
    before it), then continue with [k]; [None] is a failure, after which
    the caller backtracks.  A repetition never iterates over an empty
    match of its body. *)
Fixpoint run {R} (r : regex) (prev : option ascii) (s : string) (c : caps)
    (k : option ascii → string → caps → option R) {struct r} : option R :=
  match r with
  | Eps => k prev s c
  | Chr p =>
      match s with
      | String a s' => if p a then k (Some a) s' c else None
      | EmptyString => None
      end
  | Seq r1 r2 => run r1 prev s c (λ prev' s' c', run r2 prev' s' c' k)
  | Alt r1 r2 =>
      match run r1 prev s c k with
      | Some x => Some x
      | None => run r2 prev s c k
      end
  | Star greedy r1 =>
      (fix loop (fuel : nat) (prev : option ascii) (s : string) (c : caps) {struct fuel} : option R :=
         match fuel with
         | O => k prev s c
         | S fuel' =>
             let more :=
               run r1 prev s c
                 (λ prev' s' c',
                    if (String.length s' <? String.length s)%nat
                    then loop fuel' prev' s' c' else None) in
             if greedy
             then match more with Some x => Some x | None => k prev s c end
             else match k prev s c with Some x => Some x | None => more end
         end) (String.length s) prev s c
  | Group n r1 =>
      run r1 prev s c (λ prev' s' c', k prev' s' ((n, consumed s s') :: c'))
  | WordB => if xorb (word_before prev) (word_at s) then k prev s c else None
  end.

(** A match at the head of [s]: the groups and the rest of the input. *)
Definition match_here (r : regex) (prev : option ascii) (s : string) : option (caps * string) :=
  run r prev s [] (λ _ s' c, Some (c, s')).

(** *** Building patterns *)

Definition plus (r : regex) : regex := Seq r (Star true r).
Definition opt (r : regex) : regex := Alt r Eps.

Definition chr (ignorecase : bool) (c : ascii) : regex :=
  if ignorecase
  then Chr (λ x, Ascii.eqb (PyStr.lower_char x) (PyStr.lower_char c))
  else Chr (Ascii.eqb c).

Fixpoint lit (ignorecase : bool) (s : string) : regex :=
  match s with
  | EmptyString => Eps
  | String c EmptyString => chr ignorecase c
  | String c s' => Seq (chr ignorecase c) (lit ignorecase s')
  end.

Definition space : regex := Chr PyStr.is_space.
Definition word_char : regex := Chr PyStr.is_word.
Definition not_char (c : ascii) : regex := Chr (λ x, negb (Ascii.eqb x c)).

(** *** Replacement templates *)

Inductive titem : Type :=
| TLit (c : ascii)
| TRef (n : nat).

Definition digit_of (c : ascii) : option nat :=
  if PyStr.is_digit c then Some (PyStr.code c - 48)%nat else None.

Inductive tstate : Type :=
| TPlain
| TEsc
| TDigit (n : nat).

(** The template of [re.sub] as [re] reads it: a backslash followed by a
    backslash is one literal backslash, a backslash followed by one or two
    digits refers to a group; the other escapes (and octal escapes) do not
    occur in the repository's templates and are kept as they are
    written. *)
Fixpoint parse_template (st : tstate) (t : string) : list titem :=
  match t with
  | EmptyString =>
      match st with
      | TPlain => []
      | TEsc => [TLit Py.backslash]
      | TDigit n => [TRef n]
      end
  | String c t' =>
      match st with
      | TPlain =>
          if Ascii.eqb c Py.backslash then parse_template TEsc t'
          else TLit c :: parse_template TPlain t'
      | TEsc =>
          if Ascii.eqb c Py.backslash then TLit Py.backslash :: parse_template TPlain t'
          else match digit_of c with
               | Some n => parse_template (TDigit n) t'
               | None => TLit Py.backslash :: TLit c :: parse_template TPlain t'
               end
      | TDigit n =>
          match digit_of c with
          | Some n2 => TRef (10 * n + n2) :: parse_template TPlain t'
          | None =>
              TRef n ::
              (if Ascii.eqb c Py.backslash then parse_template TEsc t'
               else TLit c :: parse_template TPlain t')
          end
      end
  end.

(** The expansion of a template for one match: a group that took no part
    in the match expands to the empty string. *)
Fixpoint expand (t : list titem) (c : caps) : string :=
  match t with
  | [] => EmptyString
  | TLit a :: t' => String a (expand t' c)
  | TRef n :: t' => default EmptyString (group c n) +:+ expand t' c
  end.

(** *** [re.sub] and [re.finditer] *)

(** [pattern.sub(repl, s)]: the matches are taken from the left and do not
    overlap; [skip] counts the characters of a match still to be passed
    over.  An empty match is replaced and the scan moves on by one
    character. *)
Fixpoint sub_from (r : regex) (t : list titem) (skip : nat)
    (prev : option ascii) (s : string) : string :=
  match s with
  | EmptyString =>
      match skip, match_here r prev s with
      | O, Some (c, _) => expand t c
      | _, _ => EmptyString
      end
  | String a s' =>
      match skip with
      | S k => sub_from r t k (Some a) s'
      | O =>
          match match_here r prev s with
          | Some (c, rest) =>
              match (String.length s - String.length rest)%nat with
              | O => expand t c +:+ String a (sub_from r t 0 (Some a) s')
              | S n => expand t c +:+ sub_from r t n (Some a) s'
              end
          | None => String a (sub_from r t 0 (Some a) s')
          end
      end
  end.

Definition sub (r : regex) (repl : string) (s : string) : string :=
  sub_from r (parse_template TPlain repl) 0 None s.

(** [list(pattern.finditer(s))], each match by its groups. *)
Fixpoint finditer_from (r : regex) (skip : nat) (prev : option ascii) (s : string) : list caps :=
  match s with
  | EmptyString =>
      match skip, match_here r prev s with
      | O, Some (c, _) => [c]
      | _, _ => []
      end
  | String a s' =>
      match skip with
      | S k => finditer_from r k (Some a) s'
      | O =>
          match match_here r prev s with
          | Some (c, rest) =>
              c :: finditer_from r (String.length s - String.length rest - 1) (Some a) s'
          | None => finditer_from r 0 (Some a) s'
          end
      end
  end.

Definition finditer (r : regex) (s : string) : list caps := finditer_from r 0 None s.

End Re.

(** ** The relational engine, as far as the mutators use it

    Both mutators issue one kind of statement, [UPDATE t SET c = e] over
    all rows of a table, and read the catalogue ([PRAGMA table_info],
    [PRAGMA index_list], [PRAGMA index_info]).  The engine is not part of
    the repository; this is a model of SQLite's documented behaviour: the
    rows are updated one after the other, every constraint is checked at
    once against the rows as they then stand, and a statement that fails
    leaves the table as it was.  Column affinity, CHECK constraints and
    triggers are not modelled. *)

Module Engine.

#[local] Open Scope Z_scope.

Inductive sqlval : Type :=
| SNull
| SInt (z : Z)
| SText (s : string).

#[global] Instance sqlval_eq_dec : EqDecision sqlval.
Proof. solve_decision. Defined.

(** One line of [PRAGMA table_info]. *)
Record column : Type := {
  col_name : string;
  col_type : string;
  col_notnull : bool;
  col_pk : bool
}.

Definition row : Type := Z * list sqlval.

Record table : Type := {
  tbl_name : string;
  tbl_cols : list column;
  (** [false] for a [WITHOUT ROWID] table, whose rows have no rowid. *)
  tbl_has_rowid : bool;
  (** The [INTEGER PRIMARY KEY] column, which is the rowid itself. *)
  tbl_alias : option string;
  (** The columns of each UNIQUE index. *)
  tbl_unique : list (list string);
  tbl_rows : list row
}.

Definition db : Type := list table.

(** The right-hand sides the mutators write. *)
Inductive expr : Type :=
| ENull
| EParam (v : sqlval)
| ERowid
| ENegRowid
| EPrintfRowid (fmt : string).

Definition uses_rowid (e : expr) : bool :=
  match e with
  | ERowid | ENegRowid | EPrintfRowid _ => true
  | _ => false
  end.

(** [printf(fmt, n)] for a format whose only directive is [%d]. *)
Definition printf_d (fmt : string) (n : Z) : string := PyStr.replace "%d" (pretty n) fmt.

Definition eval (e : expr) (rid : Z) : sqlval :=
  match e with
  | ENull => SNull
  | EParam v => v
  | ERowid => SInt rid
  | ENegRowid => SInt (- rid)
  | EPrintfRowid fmt => SText (printf_d fmt rid)
  end.

Fixpoint col_index (cols : list column) (name : string) : option nat :=
  match cols with
  | [] => None
  | c :: cols' =>
      if String.eqb (col_name c) name then Some O
      else S <$> col_index cols' name
  end.

(** The key of a row in a UNIQUE index; a key that holds a NULL collides
    with nothing. *)
Fixpoint index_key (cols : list column) (idx : list string) (cells : list sqlval)
    : option (list sqlval) :=
  match idx with
  | [] => Some []
  | name :: idx' =>
      i ← col_index cols name;
      v ← cells !! i;
      match v with
      | SNull => None
      | _ => k ← index_key cols idx' cells; Some (v :: k)
      end
  end.

Definition same_key (cols : list column) (idx : list string) (a b : list sqlval) : bool :=
  match index_key cols idx a with
  | Some k => bool_decide (index_key cols idx b = Some k)
  | None => false
  end.

(** Does the new row break a uniqueness constraint that the column [name]
    takes part in, given the other rows as they stand? *)
Definition collides (t : table) (name : string) (new : row) (others : list row) : bool :=
  existsb
    (λ idx, bool_decide (name ∈ idx) &&
            existsb (λ o : row, same_key (tbl_cols t) idx new.2 o.2) others)
    (tbl_unique t)
  || (bool_decide (tbl_alias t = Some name) &&
      existsb (λ o : row, (o.1 =? new.1)) others).

Fixpoint update_rows (t : table) (c : column) (i : nat) (e : expr)
    (done pending : list row) : option (list row) :=
  match pending with
  | [] => Some done
  | (rid, cells) :: rest =>
      let v := eval e rid in
      if col_notnull c && bool_decide (v = SNull) then None
      else
        rid' ← (if bool_decide (tbl_alias t = Some (col_name c))
                then match v with SInt z => Some z | _ => None end
                else Some rid);
        let new : row := (rid', <[i := v]> cells) in
        if collides t (col_name c) new (done ++ rest) then None
        else update_rows t c i e (done ++ [new]) rest
  end.

(** The row an accepted [UPDATE] leaves in the place of a row. *)
Definition updated_row (t : table) (c : column) (i : nat) (e : expr) (r : row) : row :=
  let v := eval e r.1 in
  (if bool_decide (tbl_alias t = Some (col_name c))
   then match v with SInt z => z | _ => r.1 end
   else r.1,
   <[i := v]> r.2).


Definition with_rows (t : table) (rows : list row) : table :=
  {| tbl_name := tbl_name t; tbl_cols := tbl_cols t; tbl_has_rowid := tbl_has_rowid t;
     tbl_alias := tbl_alias t; tbl_unique := tbl_unique t; tbl_rows := rows |}.

(** [UPDATE t SET name = e]; [None] when the engine rejects the statement. *)
Definition update_table (t : table) (name : string) (e : expr) : option table :=
  if uses_rowid e && negb (tbl_has_rowid t) then None
  else
    i ← col_index (tbl_cols t) name;
    c ← tbl_cols t !! i;
    rows ← update_rows t c i e [] (tbl_rows t);
    Some (with_rows t rows).

Fixpoint find_table (d : db) (name : string) : option table :=
  match d with
  | [] => None
  | t :: d' => if String.eqb (tbl_name t) name then Some t else find_table d' name
  end.

Fixpoint replace_table (d : db) (t' : table) : db :=
  match d with
  | [] => []
  | t :: d' =>
      if String.eqb (tbl_name t) (tbl_name t') then t' :: d'
      else t :: replace_table d' t'
  end.

(** The statement on a connection: the database afterwards, or [None] (the
    statement raised and the database is as before). *)
Definition execute_update (d : db) (tname cname : string) (e : expr) : option db :=
  t ← find_table d tname;
  t' ← update_table t cname e;
  Some (replace_table d t').

(** [SELECT rowid FROM t LIMIT 1] does not raise. *)
Definition select_rowid_ok (d : db) (tname : string) : bool :=
  match find_table d tname with
  | Some t => tbl_has_rowid t
  | None => false
  end.


(** A table with the name, the columns, the constraints and the number
    of rows of another one. *)
Definition same_shape (t t' : table) : Prop :=
  ∃ rows, t' = with_rows t rows ∧ length rows = length (tbl_rows t).

End Engine.

(** ** duckdb_pipeline.py *)

Module duckdb_pipeline.

Import Py Re.

(** *** The value canonicalizer *)

Section Canonical.

Variable repr : pyval → string.

Definition _jsonable_scalar (x : pyval) : pyval :=
  match x with
  | PNone => PNone
  | PBool _ | PInt _ | PFloat _ | PStr _ => x
  | PDecimal d => PFloat (decimal_to_float d)
  | PBytes raw =>
      PDict [("__type__", PStr "bytes"); ("base64", PStr (b64encode raw))]
  | PObj _ (IsoReturns s) _ => PStr s
  | _ =>
      PDict [("__type__", PStr "py_repr"); ("py_type", PStr (type_name x));
             ("repr", PStr (repr x))]
  end.

Definition _jsonable_rows (rows : list (list pyval)) : list (list pyval) :=
  map (map _jsonable_scalar) rows.

(** [None] stands for the [TypeError] of [json.dumps]. *)
Definition _stable_key (x : pyval) : option string := json_dumps repr x.

(** The key of one row, as [_rows_as_counter] builds it. *)
Definition row_key (row : list pyval) : option string :=
  _stable_key (PList (map _jsonable_scalar row)).

Definition _rows_as_counter (rows : list (list pyval)) : option (gmap string nat) :=
  Counter <$> mapM row_key rows.

(** The key of a row as text ([row_key] never fails, see
    [row_key_total]). *)
Definition key_of_row (row : list pyval) : string := default "" (row_key row).

End Canonical.

(** [_num]: the float a value is compared as, [None] when it has none.
    The conversion of a text stands inside a [try]; that of an [int]
    does not, so an integer beyond the float range raises.  A run of
    digits is read by [int] without the limit that recent interpreters
    put on the number of its digits (text of that length is out of the
    float range anyway, leading zeros apart). *)
Definition _num (x : pyval) : result (option PyFloat.float) :=
  match x with
  | PBool _ => Ok None
  | PInt z =>
      match PyFloat.of_int z with
      | Some f => Ok (Some f)
      | None => Raise OverflowError
      end
  | PFloat f => Ok (Some f)
  | PDecimal d => Ok (Some (decimal_to_float d))
  | PStr x =>
      let s := PyStr.strip x in
      if String.eqb s "" then Ok None
      else if PyStr.isdigit s then Ok (PyFloat.of_int (PyStr.digits_val 0 s))
      else if PyStr.startswith "-" s && PyStr.isdigit (PyStr.tail s)
           then Ok (PyFloat.of_int (- PyStr.digits_val 0 (PyStr.tail s)))
      else Ok (PyFloat.of_string s)
  | _ => Ok None
  end.

(** The rewriting of a tagged byte dictionary at the head of [scalar_equal]. *)
Definition untag_bytes (a : pyval) : pyval :=
  match a with
  | PDict d =>
      match dict_get d "__type__" with
      | Some t =>
          if py_eq t (PStr "bytes")
          then PTuple [PStr "bytes"; default PNone (dict_get d "base64")]
          else a
      | None => a
      end
  | _ => a
  end.

Definition is_tuple (a : pyval) : bool :=
  match a with PTuple _ => true | _ => false end.

Definition scalar_equal (a b : pyval) : result bool :=
  match a, b with
  | PNone, PNone => Ok true
  | _, _ =>
      let a := untag_bytes a in
      let b := untag_bytes b in
      if is_tuple a || is_tuple b then Ok (py_eq a b)
      else
        na ← _num a;
        nb ← _num b;
        match na, nb with
        | Some x, Some y => Ok (PyFloat.isclose x y PyFloat.tol PyFloat.tol)
        | _, _ => Ok (py_eq a b)
        end
  end.

(** The cells of two rows, pairwise ([zip] stops at the shorter row). *)
Fixpoint cells_equal (erow grow : list pyval) : result bool :=
  match erow, grow with
  | ea :: erow', ga :: grow' =>
      match scalar_equal ea ga with
      | Ok true => cells_equal erow' grow'
      | r => r
      end
  | _, _ => Ok true
  end.

Fixpoint rows_equal_loop (expected : list pyval) (got : list (list pyval)) : result bool :=
  match expected, got with
  | erow :: expected', grow :: got' =>
      match erow with
      | PList cells =>
          if negb (length cells =? length grow)%nat then Ok false
          else
            match cells_equal cells grow with
            | Ok true => rows_equal_loop expected' got'
            | r => r
            end
      | _ => Ok false
      end
  | _, _ => Ok true
  end.

Definition rows_equal (expected : pyval) (got : list (list pyval)) : result bool :=
  match expected with
  | PList rows =>
      if negb (length rows =? length got)%nat then Ok false
      else rows_equal_loop rows got
  | _ => Ok false
  end.

(** The rows of [expected] as tuples, or [None] when one of them is no
    list. *)
Fixpoint exp_rows (expected : list pyval) : option (list (list pyval)) :=
  match expected with
  | [] => Some []
  | PList r :: rest => rs ← exp_rows rest; Some (r :: rs)
  | _ :: _ => None
  end.

Section Unordered.

Variable repr : pyval → string.

(** [None] stands for the [TypeError] of [json.dumps]. *)
Definition rows_equal_unordered (expected : pyval) (got : list (list pyval)) : option bool :=
  match expected with
  | PList rows =>
      match exp_rows rows with
      | Some ers =>
          ce ← _rows_as_counter repr ers;
          cg ← _rows_as_counter repr got;
          Some (bool_decide (ce = cg))
      | None => Some false
      end
  | _ => Some false
  end.

End Unordered.

(** *** The rewrite rules *)


(** [STRFTIME\(([^)]*?),\s*'%Y'\)] *)
Definition _RE_STRFTIME_YEAR : regex :=
  Seq (lit false "STRFTIME(")
   (Seq (Group 1 (Star false (not_char ")")))
    (Seq (lit false ",")
     (Seq (Star true space) (lit false "'%Y')")))).

Definition ident_head : regex := Chr (λ c, PyStr.is_alpha c || Ascii.eqb c "_").

(** [(CURRENT_TIMESTAMP)\s*-\s*([A-Za-z_][A-Za-z0-9_]*\.)?birthday\b],
    with [re.IGNORECASE]. *)
Definition birthday_re : regex :=
  Seq (Group 1 (lit true "CURRENT_TIMESTAMP"))
   (Seq (Star true space)
    (Seq (lit true "-")
     (Seq (Star true space)
      (Seq (opt (Group 2 (Seq ident_head (Seq (Star true word_char) (lit true ".")))))
       (Seq (lit true "birthday") WordB))))).

(** [\bSELECT\s+(t1\.)player_name\b], with [re.IGNORECASE]. *)
Definition player_name_re : regex :=
  Seq WordB
   (Seq (lit true "SELECT")
    (Seq (plus space)
     (Seq (Group 1 (lit true "t1."))
      (Seq (lit true "player_name") WordB)))).

(** [\bSELECT\s+(teamInfo\.)team_long_name\b], with [re.IGNORECASE]. *)
Definition team_long_name_re : regex :=
  Seq WordB
   (Seq (lit true "SELECT")
    (Seq (plus space)
     (Seq (Group 1 (lit true "teamInfo."))
      (Seq (lit true "team_long_name") WordB)))).

(** The replacement templates, character for character as the raw string
    literals of the source hold them. *)
Definition strftime_template : string := "CAST(STRFTIME(\1, '%Y') AS INTEGER)".
Definition birthday_template : string := "\\1 - CAST(\\2birthday AS TIMESTAMP)".
Definition player_name_template : string := "SELECT ANY_VALUE(\\1player_name) AS player_name".
Definition team_long_name_template : string :=
  "SELECT ANY_VALUE(\\1team_long_name) AS team_long_name".

Definition rewrite_for_duckdb (sql : string) : string :=
  let sql := PyStr.replace "DATETIME()" "CURRENT_TIMESTAMP" sql in
  let sql :=
    if PyStr.contains "STRFTIME" sql && PyStr.contains "%Y" sql && PyStr.contains "-" sql
    then sub _RE_STRFTIME_YEAR strftime_template sql
    else sql in
  let sql := sub birthday_re birthday_template sql in
  let sql := sub player_name_re player_name_template sql in
  let sql := sub team_long_name_re team_long_name_template sql in
  sql.


(** *** The nullification of columns in a converted database *)

Definition PAIR_RE : regex :=
  Alt
    (Seq (Group 1 (plus word_char))
      (Seq (lit false ".") (Seq (lit false "`")
        (Seq (Group 2 (plus (not_char "`"))) (lit false "`")))))
    (Seq (Group 3 (plus word_char))
      (Seq (lit false ".") (Group 4 (plus word_char)))).

Definition por (a b : option string) : option string :=
  match a with
  | Some (String _ _) => a
  | _ => b
  end.

Definition _iter_pairs (expr : string) : list (string * string) :=
  match finditer PAIR_RE expr with
  | [] =>
      match PyStr.split_once "." expr with
      | Some (table, col) => [(PyStr.strip table, PyStr.strip_char "`" (PyStr.strip col))]
      | None => []
      end
  | matches =>
      omap
        (λ m,
           let table := PyStr.strip (default "" (por (group m 1) (group m 3))) in
           let col := PyStr.strip (default "" (por (group m 2) (group m 4))) in
           if negb (String.eqb table "") && negb (String.eqb col "")
           then Some (table, col) else None)
        matches
  end.

Definition _duck_list_tables (conn : Engine.db) : gmap string string :=
  foldl (λ m t, <[PyStr.lower (Engine.tbl_name t) := Engine.tbl_name t]> m) ∅ conn.

Definition _duck_table_info (conn : Engine.db) (table : string)
    : gmap string (string * string * bool * bool) :=
  match Engine.find_table conn table with
  | Some t =>
      foldl (λ m c, <[PyStr.lower (Engine.col_name c) :=
                       (Engine.col_name c, Engine.col_type c,
                        Engine.col_notnull c, Engine.col_pk c)]> m)
            ∅ (Engine.tbl_cols t)
  | None => ∅
  end.

Definition _duck_empty_value (type_s : string) : Engine.sqlval :=
  let t := PyStr.upper type_s in
  if existsb (λ x, PyStr.contains x t)
       ["INT"; "REAL"; "FLOA"; "DOUB"; "NUM"; "DEC"; "BOOL"; "HUGEINT"]
  then Engine.SInt 0
  else if PyStr.contains "DATE" t then Engine.SText "1970-01-01"
  else if PyStr.contains "TIME" t then Engine.SText "1970-01-01 00:00:00"
  else Engine.SText "".

Record counters : Type := { applied : nat; failed : nat; missing : nat }.

Definition table_aliases : gmap string string := {["fprm" := "frpm"]}.

Definition nullify_pair (table_map : gmap string string) (st : Engine.db * counters)
    (pair : string * string) : Engine.db * counters :=
  let '(conn, n) := st in
  let '(table_raw, col_raw) := pair in
  let t := PyStr.strip_char "`" (PyStr.strip_char dquote (PyStr.strip table_raw)) in
  let t_norm := default (PyStr.lower t) (table_aliases !! PyStr.lower t) in
  match table_map !! t_norm with
  | Some (String _ _ as table) =>
      match _duck_table_info conn table !! PyStr.lower col_raw with
      | Some (col_name, col_type, _notnull, _pk) =>
          match Engine.execute_update conn table col_name Engine.ENull with
          | Some conn' =>
              (conn', {| applied := S (applied n); failed := failed n; missing := missing n |})
          | None =>
              let empty := _duck_empty_value col_type in
              match Engine.execute_update conn table col_name (Engine.EParam empty) with
              | Some conn' =>
                  (conn', {| applied := S (applied n); failed := failed n; missing := missing n |})
              | None =>
                  (conn, {| applied := applied n; failed := S (failed n); missing := missing n |})
              end
          end
      | None => (conn, {| applied := applied n; failed := failed n; missing := S (missing n) |})
      end
  | _ => (conn, {| applied := applied n; failed := failed n; missing := S (missing n) |})
  end.

(** The copy written to [dst_duckdb] and the return code. *)
Definition nullify_columns_in_duckdb (src : Engine.db) (columns : list string) : Engine.db * Z :=
  let table_map := _duck_list_tables src in
  let '(conn, n) :=
    foldl (λ st ref, foldl (nullify_pair table_map) st (_iter_pairs ref))
          (src, {| applied := 0; failed := 0; missing := 0 |}) columns in
  (conn, if (failed n =? 0)%nat then 0%Z else 2%Z).

(** *** The migration engine

    The file system is a finite map from paths (lists of components) to
    directories and files.  A file is a DuckDB database, given by its
    tables, or anything else (a SQLite database, a partial write). *)

Abbreviation path := (list string).

Inductive content : Type :=
| DuckDB (tables : list Engine.table)
| Blob (raw : string).

Inductive node : Type :=
| Dir
| File (c : content).

Definition parent (p : path) : path := removelast p.

(** The path itself and the paths above it, the root first. *)
Fixpoint prefixes (p : path) : list path :=
  match p with
  | [] => [[]]
  | x :: p' => [] :: ((x ::.) <$> prefixes p')
  end.

(** One directory of [p.mkdir(parents=True, exist_ok=True)]. *)
Definition mkdir_step (r : result (gmap path node)) (q : path) : result (gmap path node) :=
  f ← r;
  match f !! q with
  | Some (File _) => Raise OSError
  | _ => Ok (<[q := Dir]> f)
  end.

(** [p.mkdir(parents=True, exist_ok=True)] *)
Definition mkdir_parents (p : path) (f : gmap path node) : result (gmap path node) :=
  foldl mkdir_step (Ok f) (prefixes p).

Definition _safe_unlink (p : path) (f : gmap path node) : result (gmap path node) :=
  match f !! p with
  | Some (File _) => Ok (delete p f)
  | Some Dir => Raise OSError
  | None => Ok f
  end.

(** [Path.stem]: the last component without its last suffix. *)
Definition drop_suffix (name : string) : string :=
  let r := String.rev name in
  match PyStr.split_once "." r with
  | Some (_, String c rest) => String.rev (String c rest)
  | _ => name
  end.

Definition stem (p : path) : string := drop_suffix (List.last p "").

Section Migration.

(** The importer that runs in a process of its own: what it leaves at the
    target path ([None]: nothing written) and whether it exited with
    status 0.  It writes nowhere else. *)
Variable sqlite2duckdb : gmap path node → path → path → option content * bool.

(** The tables of a SQLite file with every column read as text, as the
    engine's SQLite extension attaches them; [None] when it raises. *)
Variable attach_all_varchar : gmap path node → path → option (list Engine.table).

(** A function that may raise after it has changed the file system returns
    the file system as it leaves it and the exception, if any. *)
Definition _convert_sqlite_to_duckdb_with_all_varchar (sqlite_db duck_db : path)
    (f : gmap path node) : gmap path node * option pyexn :=
  match f !! duck_db with
  | Some Dir | Some (File (Blob _)) => (f, Some DatabaseError)
  | _ =>
      let f1 := <[duck_db := File (DuckDB [])]> f in
      match attach_all_varchar f1 sqlite_db with
      | Some tables => (<[duck_db := File (DuckDB tables)]> f1, None)
      | None => (f1, Some DatabaseError)
      end
  end.

(** The handler of the [try] in [convert_sqlite_to_duckdb]. *)
Definition fallback (sqlite_db duck_db : path) (f : gmap path node)
    : gmap path node * option pyexn :=
  match _safe_unlink duck_db f with
  | Ok f' => _convert_sqlite_to_duckdb_with_all_varchar sqlite_db duck_db f'
  | Raise e => (f, Some e)
  end.

Definition convert_sqlite_to_duckdb (sqlite_db duck_db : path) (force : bool)
    (f : gmap path node) : gmap path node * option pyexn :=
  match mkdir_parents (parent duck_db) f with
  | Raise e => (f, Some e)
  | Ok f1 =>
      let convert (f2 : gmap path node) :=
        if String.eqb (stem sqlite_db) "european_football_2" then fallback sqlite_db duck_db f2
        else
          let '(written, ok) := sqlite2duckdb f2 sqlite_db duck_db in
          let f3 := match written with
                    | Some c => <[duck_db := File c]> f2
                    | None => f2
                    end in
          if ok then
            match f3 !! duck_db with
            | Some (File (DuckDB (_ :: _))) => (f3, None)
            | _ => fallback sqlite_db duck_db f3
            end
          else fallback sqlite_db duck_db f3 in
      match f1 !! duck_db with
      | Some _ =>
          if negb force then (f1, None)
          else match _safe_unlink duck_db f1 with
               | Ok f2 => convert f2
               | Raise e => (f1, Some e)
               end
      | None => convert f1
      end
  end.

(** The directories above a path exist. *)
Definition dirs_above (p : path) (f : gmap path node) : Prop :=
  ∀ q, q ∈ prefixes (parent p) → f !! q = Some Dir.

(** The names of the tables of the database at a path. *)
Definition table_set (f : gmap path node) (p : path) : option (list string) :=
  match f !! p with
  | Some (File (DuckDB tables)) => Some (Engine.tbl_name <$> tables)
  | _ => None
  end.

End Migration.

(** *** The evaluation harness *)

Record EvalStats : Type := {
  total : nat;
  correct : nat;
  exec_errors : nat;
  transpile_errors : nat;
  mismatches : nat
}.

Definition new_stats : EvalStats :=
  {| total := 0; correct := 0; exec_errors := 0; transpile_errors := 0; mismatches := 0 |}.

Definition inc_total (s : EvalStats) : EvalStats :=
  {| total := S (total s); correct := correct s; exec_errors := exec_errors s;
     transpile_errors := transpile_errors s; mismatches := mismatches s |}.
Definition inc_correct (s : EvalStats) : EvalStats :=
  {| total := total s; correct := S (correct s); exec_errors := exec_errors s;
     transpile_errors := transpile_errors s; mismatches := mismatches s |}.
Definition inc_exec_errors (s : EvalStats) : EvalStats :=
  {| total := total s; correct := correct s; exec_errors := S (exec_errors s);
     transpile_errors := transpile_errors s; mismatches := mismatches s |}.
Definition inc_transpile_errors (s : EvalStats) : EvalStats :=
  {| total := total s; correct := correct s; exec_errors := exec_errors s;
     transpile_errors := S (transpile_errors s); mismatches := mismatches s |}.
Definition inc_mismatches (s : EvalStats) : EvalStats :=
  {| total := total s; correct := correct s; exec_errors := exec_errors s;
     transpile_errors := transpile_errors s; mismatches := S (mismatches s) |}.

(** [stats = by_db.setdefault(db_id, EvalStats())] followed by an update
    of [stats] in place. *)
Definition bump (f : EvalStats → EvalStats) (db_id : string)
    (by_db : gmap string EvalStats) : gmap string EvalStats :=
  <[db_id := f (default new_stats (by_db !! db_id))]> by_db.

(** The ordered comparison of [rows_equal_sqlite_duckdb]. *)
Fixpoint tuples_equal (sqlite_rows duck_rows : list (list pyval)) : result bool :=
  match sqlite_rows, duck_rows with
  | sr :: srs, dr :: drs =>
      if negb (length sr =? length dr)%nat then Ok false
      else
        match cells_equal sr dr with
        | Ok true => tuples_equal srs drs
        | r => r
        end
  | _, _ => Ok true
  end.

(** A line of the compatibility log. *)
Record record : Type := {
  question_id : string;
  db : string;
  gold_sql : string;
  duck_sql : string;
  answer : list (list pyval)
}.

(** What executing a query on a converted database comes to: the
    connection cannot be opened (the exception leaves [_evaluate]), the
    query raises, or it returns rows. *)
Inductive duck_outcome : Type :=
| ConnectFails
| ExecFails
| Rows (got : list (list pyval)).

(** The command line, as far as the evaluation reads it. *)
Record Args : Type := {
  only_db : string;
  compare_to_gold : bool;
  unordered : bool;
  rewrite : bool;
  drop_columns : bool;
  out_compatible : bool;
  out_broken : bool
}.

(** The accumulators of one pass, and the lines written to the
    compatibility log. *)
Record pass : Type := {
  by_db : gmap string EvalStats;
  compatible : gset (string * string);
  compatible_records : gmap (string * string) record;
  written : list record
}.

Definition with_by_db (st : pass) (m : gmap string EvalStats) : pass :=
  {| by_db := m; compatible := compatible st;
     compatible_records := compatible_records st; written := written st |}.

(** The accounting identity of one record of statistics. *)
Definition balanced (s : EvalStats) : Prop :=
  total s = correct s + mismatches s + exec_errors s ∧
  (transpile_errors s ≤ exec_errors s)%nat.

Definition all_balanced (m : gmap string EvalStats) : Prop :=
  ∀ db s, m !! db = Some s → balanced s.

(** What one counted row does to the statistics of its database. *)
Inductive counted (db : string) (m : gmap string EvalStats) : gmap string EvalStats → Prop :=
| counted_exec_error :
    counted db m (bump inc_exec_errors db (bump inc_total db m))
| counted_transpile_error :
    counted db m (bump inc_exec_errors db (bump inc_transpile_errors db (bump inc_total db m)))
| counted_mismatch :
    counted db m (bump inc_mismatches db (bump inc_total db m))
| counted_correct :
    counted db m (bump inc_correct db (bump inc_total db m)).

Section Harness.

(** The collaborators outside the repository: the builtin [repr], the
    dialect transpiler, the files on disk and the two engines. *)
Variable repr : pyval → string.
Variable sqlglot_transpile : string → option (list string).
Variable sqlite_is_file : string → bool.
Variable sqlite_execute : string → string → option (list (list pyval)).
Variable duck_is_file : string → string → bool.
Variable duck_execute : string → string → string → duck_outcome.

Variable args : Args.
(** The answers loaded from the gold files, by question id. *)
Variable expected : gmap string pyval.

(** [None] stands for an exception of the transpiler. *)
Definition transpile_sql (sqlite_sql : string) : option string :=
  out ← sqlglot_transpile sqlite_sql;
  Some (match out with
        | x :: _ => x
        | [] => sqlite_sql
        end).

Definition rows_equal_sqlite_duckdb (sqlite_rows duck_rows : list (list pyval))
    (unordered : bool) : result bool :=
  if negb unordered then
    if negb (length sqlite_rows =? length duck_rows)%nat then Ok false
    else tuples_equal sqlite_rows duck_rows
  else
    match _rows_as_counter repr sqlite_rows, _rows_as_counter repr duck_rows with
    | Some cs, Some cd => Ok (bool_decide (cs = cd))
    | _, _ => Raise TypeError
    end.

(** [sorted(rows, key=_stable_key)] *)
Definition _canonicalize_jsonable_rows (rows : list (list pyval)) : option (list (list pyval)) :=
  keyed ← mapM (λ r, k ← _stable_key repr (PList r); Some (k, r)) rows;
  Some (snd <$> sort_items keyed).

(** The key of a row of a query file: the database id and the question
    id, which is the stem of the file and the position of the row. *)
Definition row_key_of (base : string) (row_idx : nat) (row : list string) : string * string :=
  (PyStr.strip (default "" (row !! 0%nat)), base +:+ ":" +:+ pretty row_idx).

Definition item_key (item : string * nat * list string) : string * string :=
  row_key_of item.1.1 item.1.2 item.2.

(** The head of the loop body of [_evaluate]: is the row evaluated at all? *)
Definition selected (restrict_to : option (gset (string * string)))
    (base : string) (row_idx : nat) (row : list string) : bool :=
  let db_id := PyStr.strip (default "" (row !! 0%nat)) in
  let gold_sql := default "" (row !! 3%nat) in
  negb (length row <? 4)%nat &&
  negb (String.eqb db_id "" || String.eqb gold_sql "") &&
  negb (negb (String.eqb (only_db args) "") && negb (String.eqb db_id (only_db args))) &&
  match restrict_to with
  | Some keys => bool_decide (row_key_of base row_idx row ∈ keys)
  | None => true
  end.

(** The part of the loop body from the transpilation on. *)
Definition run_query (duckdb_root : string) (record_compatible capture_records : bool)
    (db_id qid gold_sql : string) (exp : pyval) (sqlite_rows : list (list pyval))
    (st : pass) : result pass :=
  match transpile_sql gold_sql with
  | None =>
      Ok (with_by_db st (bump inc_exec_errors db_id (bump inc_transpile_errors db_id (by_db st))))
  | Some duck_sql =>
      let duck_sql := if rewrite args then rewrite_for_duckdb duck_sql else duck_sql in
      if negb (duck_is_file duckdb_root db_id)
      then Ok (with_by_db st (bump inc_exec_errors db_id (by_db st)))
      else
        match duck_execute duckdb_root db_id duck_sql with
        | ConnectFails => Raise DatabaseError
        | ExecFails => Ok (with_by_db st (bump inc_exec_errors db_id (by_db st)))
        | Rows got =>
            ok ← (if compare_to_gold args then
                    if unordered args
                    then match rows_equal_unordered repr exp got with
                         | Some b => Ok b
                         | None => Raise TypeError
                         end
                    else rows_equal exp got
                  else rows_equal_sqlite_duckdb sqlite_rows got (unordered args));
            if ok : bool then
              let st := with_by_db st (bump inc_correct db_id (by_db st)) in
              if record_compatible then
                let key := (db_id, qid) in
                let st := {| by_db := by_db st; compatible := compatible st ∪ {[key]};
                             compatible_records := compatible_records st;
                             written := written st |} in
                if out_compatible args then
                  match _canonicalize_jsonable_rows (_jsonable_rows repr got) with
                  | None => Raise TypeError
                  | Some ans =>
                      let rec := {| question_id := qid; db := db_id; gold_sql := gold_sql;
                                    duck_sql := duck_sql; answer := ans |} in
                      if out_broken args then
                        if capture_records
                        then Ok {| by_db := by_db st; compatible := compatible st;
                                   compatible_records := <[key := rec]> (compatible_records st);
                                   written := written st |}
                        else Ok st
                      else Ok {| by_db := by_db st; compatible := compatible st;
                                 compatible_records := compatible_records st;
                                 written := written st ++ [rec] |}
                  end
                else Ok st
              else Ok st
            else Ok (with_by_db st (bump inc_mismatches db_id (by_db st)))
        end
  end.

(** The loop body of [_evaluate] for one row of one query file. *)
Definition eval_row (duckdb_root : string) (restrict_to : option (gset (string * string)))
    (record_compatible capture_records : bool)
    (st : pass) (item : string * nat * list string) : result pass :=
  let '(base, row_idx, row) := item in
  if negb (selected restrict_to base row_idx row) then Ok st
  else
    let '(db_id, qid) := row_key_of base row_idx row in
    let gold_sql := default "" (row !! 3%nat) in
    if compare_to_gold args then
      match expected !! qid with
      | None | Some PNone => Ok st
      | Some exp =>
          run_query duckdb_root record_compatible capture_records db_id qid gold_sql exp []
            (with_by_db st (bump inc_total db_id (by_db st)))
      end
    else
      let st := with_by_db st (bump inc_total db_id (by_db st)) in
      if negb (sqlite_is_file db_id)
      then Ok (with_by_db st (bump inc_exec_errors db_id (by_db st)))
      else
        match sqlite_execute db_id gold_sql with
        | None => Ok (with_by_db st (bump inc_exec_errors db_id (by_db st)))
        | Some sqlite_rows =>
            run_query duckdb_root record_compatible capture_records db_id qid gold_sql PNone
              sqlite_rows st
        end.

(** The rows of the query files with their stems and their positions,
    [enumerate(..., start=1)]; the rows are those that [_iter_csv_rows]
    yields, the non-empty ones. *)
Definition numbered (csvs : list (string * list (list string)))
    : list (string * nat * list string) :=
  csvs ≫= λ '(base, rows), imap (λ i row, (base, S i, row)) rows.

Fixpoint eval_rows (duckdb_root : string) (restrict_to : option (gset (string * string)))
    (record_compatible capture_records : bool)
    (items : list (string * nat * list string)) (st : pass) : result pass :=
  match items with
  | [] => Ok st
  | item :: items' =>
      st' ← eval_row duckdb_root restrict_to record_compatible capture_records st item;
      eval_rows duckdb_root restrict_to record_compatible capture_records items' st'
  end.

(** One pass: [out] is what the compatibility log holds when it starts. *)
Definition _evaluate (csvs : list (string * list (list string))) (out : list record)
    (duckdb_root : string) (restrict_to : option (gset (string * string)))
    (record_compatible capture_records : bool) : result pass :=
  eval_rows duckdb_root restrict_to record_compatible capture_records (numbered csvs)
    {| by_db := ∅; compatible := ∅; compatible_records := ∅; written := out |}.

Definition key_leb (a b : string * string) : bool :=
  if String.eqb a.1 b.1 then String.leb a.2 b.2 else String.leb a.1 b.1.

Fixpoint insert_key (x : string * string) (l : list (string * string)) : list (string * string) :=
  match l with
  | [] => [x]
  | y :: l' => if key_leb x y then x :: l else y :: insert_key x l'
  end.

(** [sorted(keys)] for a set of keys. *)
Definition sorted_keys (keys : gset (string * string)) : list (string * string) :=
  foldr insert_key [] (elements keys).

(** What the two phases of [main] report. *)
Record report : Type := {
  baseline_by_db : gmap string EvalStats;
  baseline_compatible : gset (string * string);
  dropped_by_db : option (gmap string EvalStats);
  log : list record
}.

(** The phases of [main] from the first evaluation on.  [nullify_all] is
    the loop that writes the copies with nulled columns under
    [drop_dst_root]: the evaluation sees its effect only through
    [duck_is_file] and [duck_execute] at that root. *)
Definition main_phases (csvs : list (string * list (list string)))
    (duckdb_out_root drop_dst_root : string) (nullify_all : result ()) : result report :=
  if out_broken args && negb (drop_columns args)
  then Raise (SystemExit "--out-broken requires --drop-columns")
  else if out_broken args && negb (out_compatible args)
  then Raise (SystemExit "--out-broken requires --out-compatible")
  else
    p1 ← _evaluate csvs [] duckdb_out_root None
            (drop_columns args || out_compatible args) (out_broken args);
    if drop_columns args then
      _ ← nullify_all;
      p2 ← _evaluate csvs (written p1) drop_dst_root (Some (compatible p1)) false false;
      if out_broken args && out_compatible args then
        p3 ← _evaluate csvs (written p2) drop_dst_root (Some (compatible p1)) true false;
        let broken := compatible p1 ∖ compatible p3 in
        let lines := omap (λ key, compatible_records p1 !! key) (sorted_keys broken) in
        Ok {| baseline_by_db := by_db p1; baseline_compatible := compatible p1;
              dropped_by_db := Some (by_db p2); log := written p3 ++ lines |}
      else
        Ok {| baseline_by_db := by_db p1; baseline_compatible := compatible p1;
              dropped_by_db := Some (by_db p2); log := written p2 |}
    else
      Ok {| baseline_by_db := by_db p1; baseline_compatible := compatible p1;
            dropped_by_db := None; log := written p1 |}.

End Harness.

(** *** Quoting, the counters of the mutator, the choice of query files *)

(** [_dq]: an identifier between double quotes, every double quote of
    its own doubled. *)
Definition _dq (ident : string) : string :=
  String dquote
    (PyStr.replace (String dquote "") (String dquote (String dquote "")) ident
     +:+ String dquote "").

(** How SQL reads a delimited identifier: from the opening quote to the
    first quote that is not doubled, a doubled quote standing for one
    quote.  The result is the identifier and the text after it. *)
Fixpoint read_delimited_body (s : string) : option (string * string) :=
  match s with
  | EmptyString => None
  | String c s' =>
      if Ascii.eqb c dquote then
        match s' with
        | String c' s'' =>
            if Ascii.eqb c' dquote
            then (λ ar : string * string, (String dquote ar.1, ar.2)) <$> read_delimited_body s''
            else Some (EmptyString, s')
        | EmptyString => Some (EmptyString, EmptyString)
        end
      else (λ ar : string * string, (String c ar.1, ar.2)) <$> read_delimited_body s'
  end.

Definition read_delimited (s : string) : option (string * string) :=
  match s with
  | String c s' => if Ascii.eqb c dquote then read_delimited_body s' else None
  | EmptyString => None
  end.

(** The loops of [nullify_columns_in_duckdb] with their counters. *)
Definition nullify_refs (src : Engine.db) (columns : list string) : Engine.db * counters :=
  foldl (λ st ref, foldl (nullify_pair (_duck_list_tables src)) st (_iter_pairs ref))
        (src, {| applied := 0; failed := 0; missing := 0 |}) columns.

Section QueryFiles.

(** [csv.reader] on the file at a path: the rows it yields, or the
    exception of opening or decoding the file. *)
Variable csv_reader : path → result (list (list string)).

(** [Path.name]: the last component. *)
Definition name (p : path) : string := List.last p "".

Definition _iter_csv_rows (csv_path : path) : result (list (list string)) :=
  match csv_reader csv_path with
  | Ok rows =>
      Ok (List.filter (λ row : list string, match row with [] => false | _ :: _ => true end) rows)
  | Raise e => Raise e
  end.

(** The local function [gold_rows] of [_filter_query_csvs]. *)
Definition gold_rows (p : path) : result (list (string * string)) :=
  match _iter_csv_rows p with
  | Ok rows =>
      Ok ((λ row : list string,
             (match row !! 0%nat with Some x => PyStr.strip x | None => "" end,
              default "" (row !! 3%nat))) <$> rows)
  | Raise e => Raise e
  end.

(** [{p.name: p for p in csv_paths}]: of two paths with one name the
    later one stays. *)
Definition by_name_of (csv_paths : list path) : gmap string path :=
  foldl (λ m p, <[name p := p]> m) ∅ csv_paths.

(** The body of the loop of [_filter_query_csvs]: is the path kept? *)
Definition keep_csv (by_name : gmap string path) (p : path) : result bool :=
  if negb (PyStr.endswith "_HybridQueries.csv" (name p)) then Ok true
  else
    match by_name !! PyStr.replace "_HybridQueries.csv" "Queries.csv" (name p) with
    | None => Ok true
    | Some q =>
        mine ← gold_rows p;
        theirs ← gold_rows q;
        Ok (negb (bool_decide (mine = theirs)))
    end.

Fixpoint filter_csvs (by_name : gmap string path) (ps : list path) : result (list path) :=
  match ps with
  | [] => Ok []
  | p :: ps' =>
      keep ← keep_csv by_name p;
      out ← filter_csvs by_name ps';
      Ok (if keep : bool then p :: out else out)
  end.

Definition _filter_query_csvs (csv_paths : list path) : result (list path) :=
  filter_csvs (by_name_of csv_paths) csv_paths.

End QueryFiles.

(** The values a cell of a result or of an answer can be: a value that
    is no tuple, list or dictionary, or a canonical form. *)
Definition is_container (v : pyval) : bool :=
  match v with
  | PTuple _ | PList _ | PDict _ => true
  | _ => false
  end.

Definition cell (v : pyval) : Prop :=
  is_container v = false ∨ ∃ repr w, v = _jsonable_scalar repr w.



End duckdb_pipeline.


(** ** preprocess_dbs.py: the column nullification mutator *)

Module preprocess_dbs.

Import Re Engine.

(** Groups 1 to 4 are [table_bt], [col_bt], [table] and [col]. *)
Definition PAIR_RE : regex :=
  Alt
    (Seq (Group 1 (plus word_char))
      (Seq (lit false ".") (Seq (lit false "`")
        (Seq (Group 2 (plus (not_char "`"))) (lit false "`")))))
    (Seq (Group 3 (plus word_char))
      (Seq (lit false ".") (Group 4 (plus word_char)))).

(** [a or b] on what [m.group] returns. *)
Definition por (a b : option string) : option string :=
  match a with
  | Some (String _ _) => a
  | _ => b
  end.

Definition _iter_pairs (expr : string) : list (string * string) :=
  match finditer PAIR_RE expr with
  | [] =>
      match PyStr.split_once "." expr with
      | Some (table, col) => [(PyStr.strip table, PyStr.strip_char "`" (PyStr.strip col))]
      | None => []
      end
  | matches =>
      omap
        (λ m,
           let table := PyStr.strip (default "" (por (group m 1) (group m 3))) in
           let col := PyStr.strip (default "" (por (group m 2) (group m 4))) in
           if negb (String.eqb table "") && negb (String.eqb col "")
           then Some (table, col) else None)
        matches
  end.

(** The user tables by lower-cased name; [Engine.db] holds no table of
    the engine's own. *)
Definition _list_tables (conn : db) : gmap string string :=
  foldl (λ m t, <[PyStr.lower (tbl_name t) := tbl_name t]> m) ∅ conn.

(** [ColInfo] has the fields of [Engine.column]. *)
Definition _table_info (conn : db) (table : string) : gmap string column :=
  match find_table conn table with
  | Some t => foldl (λ m c, <[PyStr.lower (col_name c) := c]> m) ∅ (tbl_cols t)
  | None => ∅
  end.

Definition numeric_markers : list string :=
  ["INT"; "REAL"; "FLOA"; "DOUB"; "NUM"; "DEC"; "BOOL"].

Definition numeric_like (t : string) : bool :=
  existsb (λ x, PyStr.contains x t) numeric_markers.

Definition _empty_value (ci : column) : sqlval :=
  let t := PyStr.upper (col_type ci) in
  if numeric_like t then SInt 0 else SText "".

Definition _unique_cols (conn : db) (table : string) : gset string :=
  match find_table conn table with
  | Some t =>
      foldl (λ out idx,
               foldl (λ out colname,
                        if String.eqb colname "" then out
                        else out ∪ {[PyStr.lower colname]})
                     out idx)
            ∅ (tbl_unique t)
  | None => ∅
  end.

Definition _can_use_rowid (conn : db) (table : string) : bool :=
  select_rowid_ok conn table.

(** The text an engine error is reported with. *)
Definition engine_error : string := "IntegrityError: constraint failed".

(** The per-row expression [_apply_unique_dummy] writes. *)
Definition dummy_expr (col_info : column) : expr :=
  let t := PyStr.upper (col_type col_info) in
  if numeric_like t
  then (if col_pk col_info && PyStr.contains "INT" t then ENegRowid else ERowid)
  else EPrintfRowid "__DROPPED__%d".


(** Each mutating function returns the connection as it leaves it and
    what the Python function returns: [None], or the text of an error. *)
Definition _apply_unique_dummy (conn : db) (table : string) (col_info : column)
    : db * option string :=
  if negb (_can_use_rowid conn table)
  then (conn, Some "no rowid available for per-row dummy update")
  else
    match execute_update conn table (col_name col_info) (dummy_expr col_info) with
    | Some conn' => (conn', None)
    | None => (conn, Some engine_error)
    end.

Definition _resolve_table_name (table_raw : string) (table_map aliases : gmap string string)
    : option string :=
  let t := PyStr.strip_char "`" (PyStr.strip_char Py.dquote (PyStr.strip table_raw)) in
  let t_norm := default (PyStr.lower t) (aliases !! PyStr.lower t) in
  table_map !! t_norm.

Definition _apply_nullify (conn : db) (table : string) (col_info : column)
    (unique_cols : gset string) : db * option string :=
  match execute_update conn table (col_name col_info) ENull with
  | Some conn' => (conn', None)
  | None =>
      if col_notnull col_info &&
         (col_pk col_info || bool_decide (PyStr.lower (col_name col_info) ∈ unique_cols))
      then _apply_unique_dummy conn table col_info
      else
        match execute_update conn table (col_name col_info) (EParam (_empty_value col_info)) with
        | Some conn' => (conn', None)
        | None => (conn, Some engine_error)
        end
  end.

Record counters : Type := { applied : nat; failed : nat; missing : nat }.

Definition table_aliases : gmap string string := {["fprm" := "frpm"]}.

(** One (table, column) pair of the inner loop of [process_db]. *)
Definition process_pair (table_map : gmap string string) (st : db * counters)
    (pair : string * string) : db * counters :=
  let '(conn, n) := st in
  let '(table_raw, col_raw) := pair in
  match _resolve_table_name table_raw table_map table_aliases with
  | Some (String _ _ as table) =>
      match _table_info conn table !! PyStr.lower col_raw with
      | Some ci =>
          let uniq := _unique_cols conn table in
          match _apply_nullify conn table ci uniq with
          | (conn', None) =>
              (conn', {| applied := S (applied n); failed := failed n; missing := missing n |})
          | (conn', Some _) =>
              (conn', {| applied := applied n; failed := S (failed n); missing := missing n |})
          end
      | None =>
          (conn, {| applied := applied n; failed := failed n; missing := S (missing n) |})
      end
  | _ => (conn, {| applied := applied n; failed := failed n; missing := S (missing n) |})
  end.


(** The loops of [process_db] over the references and their pairs, on the
    copy of the source database. *)
Definition process_refs (conn : db) (columns : list string) : db * counters :=
  let table_map := _list_tables conn in
  foldl (λ st ref, foldl (process_pair table_map) st (_iter_pairs ref))
        (conn, {| applied := 0; failed := 0; missing := 0 |}) columns.

(** [process_db]: the database written to [dst_db_path] and the return
    code. *)
Definition process_db (src : db) (columns : list string) : db * Z :=
  let '(conn, n) := process_refs src columns in
  (conn, if (failed n =? 0)%nat then 0%Z else 2%Z).

(** What [main] finds for one database id: no source file, an entry of
    the pickle that is no list, or a source database and its list. *)
Inductive db_entry : Type :=
| MissingSrc
| NotAList
| Entry (src : db) (columns : list string).

(** The loop of [main] over [db_ids]: [lookup] gives [None] for an id that
    is not in the pickle (then [main] raises [SystemExit]).  The state is
    the databases written so far and the exit code. *)
Fixpoint main_loop (lookup : string → option db_entry) (db_ids : list string)
    (written : gmap string db) (exit_code : Z) : result (gmap string db * Z) :=
  match db_ids with
  | [] => Ok (written, exit_code)
  | db_id :: rest =>
      match lookup db_id with
      | None => Raise (SystemExit ("DB id not in pickle: " +:+ db_id))
      | Some MissingSrc => main_loop lookup rest written (Z.max exit_code 2)
      | Some NotAList => main_loop lookup rest written (Z.max exit_code 2)
      | Some (Entry src columns) =>
          let '(dst, rc) := process_db src columns in
          main_loop lookup rest (<[db_id := dst]> written) (Z.max exit_code rc)
      end
  end.

Definition main (lookup : string → option db_entry) (db_ids : list string)
    : result (gmap string db * Z) :=
  main_loop lookup db_ids ∅ 0.


End preprocess_dbs.

(** * A scenario

    Concrete inputs on which the theorems below are applied: the example
    of the specification (the answer [[2014]] against the live result
    [[2014.0]], and a result that differs), two small tables, and a file
    system. *)

Module Scenario.

Import Py Engine duckdb_pipeline.

Definition repr (_ : pyval) : string := "2014.0".
Definition transpile (sql : string) : option (list string) := Some [sql].
Definition sqlite_is_file (_ : string) : bool := false.
Definition sqlite_execute (_ _ : string) : option (list (list pyval)) := None.
Definition duck_is_file (_ db_id : string) : bool := String.eqb db_id "db1".
Definition duck_execute (root _ sql : string) : duck_outcome :=
  if String.eqb sql "SELECT year FROM t"
  then (if String.eqb root "baseline"
        then Rows [[PFloat (PyFloat.round_Z 2014)]]
        else Rows [[PNone]])
  else if String.eqb sql "SELECT n FROM t" then Rows [[PInt 2015]]
  else ExecFails.
Definition args : Args :=
  {| only_db := ""; compare_to_gold := true; unordered := false; rewrite := true;
     drop_columns := true; out_compatible := false; out_broken := false |}.
Definition expected : gmap string pyval :=
  {[ "q:1" := PList [PList [PInt 2014]]; "q:2" := PList [PList [PInt 2014]];
     "q:3" := PList [] ]}.
Definition csvs : list (string * list (list string)) :=
  [("q", [["db1"; "Q1"; ""; "SELECT year FROM t"];
          ["db1"; "Q2"; ""; "SELECT n FROM t"];
          ["db1"; "Q3"; ""; "SELECT"];
          ["db1"; "short"];
          ["db2"; "Q5"; ""; "SELECT year FROM t"]])].

(** The report of the two phases and the first pass in this scenario. *)
Definition the_report : report :=
  Eval vm_compute in
    match main_phases repr transpile sqlite_is_file sqlite_execute duck_is_file duck_execute
            args expected csvs "baseline" "dropped" (Ok ()) with
    | Ok r => r
    | Raise _ => {| baseline_by_db := ∅; baseline_compatible := ∅;
                    dropped_by_db := None; log := [] |}
    end.

Definition the_baseline : pass :=
  Eval vm_compute in
    match _evaluate repr transpile sqlite_is_file sqlite_execute duck_is_file duck_execute
            args expected csvs [] "baseline" None true false with
    | Ok p => p
    | Raise _ => {| by_db := ∅; compatible := ∅; compatible_records := ∅; written := [] |}
    end.

(** A table with rowids whose [id] is the rowid itself and whose [email]
    is NOT NULL and UNIQUE. *)
Definition id_column : column :=
  {| col_name := "id"; col_type := "INTEGER"; col_notnull := true; col_pk := true |}.
Definition email_column : column :=
  {| col_name := "email"; col_type := "TEXT"; col_notnull := true; col_pk := false |}.
Definition people : table :=
  {| tbl_name := "people"; tbl_cols := [id_column; email_column];
     tbl_has_rowid := true; tbl_alias := Some "id"; tbl_unique := [["email"]];
     tbl_rows := [(1%Z, [SInt 1; SText "a@x"]); (2%Z, [SInt 2; SText "b@x"])] |}.

(** A [WITHOUT ROWID] table whose primary key is NOT NULL. *)
Definition code_column : column :=
  {| col_name := "code"; col_type := "INTEGER"; col_notnull := true; col_pk := true |}.
Definition codes : table :=
  {| tbl_name := "codes"; tbl_cols := [code_column];
     tbl_has_rowid := false; tbl_alias := None; tbl_unique := [["code"]];
     tbl_rows := [(0%Z, [SInt 10]); (0%Z, [SInt 20])] |}.

(** A table whose UNIQUE values are the rowids of other rows. *)
Definition rank_column : column :=
  {| col_name := "rank"; col_type := "INTEGER"; col_notnull := true; col_pk := false |}.
Definition ranks : table :=
  {| tbl_name := "ranks"; tbl_cols := [rank_column];
     tbl_has_rowid := true; tbl_alias := None; tbl_unique := [["rank"]];
     tbl_rows := [(1%Z, [SInt 2]); (2%Z, [SInt 1])] |}.

Definition pickle (db_id : string) : option preprocess_dbs.db_entry :=
  if String.eqb db_id "people" then Some (preprocess_dbs.Entry [people] ["people.nothing"; "nowhere.id"])
  else if String.eqb db_id "codes" then Some (preprocess_dbs.Entry [codes] ["codes.code"])
  else if String.eqb db_id "gone" then Some preprocess_dbs.MissingSrc
  else None.


(** A file system in which the target of a migration exists. *)
Definition target : path := ["out"; "db1.duckdb"].
Definition source : path := ["dev"; "db1"; "db1.sqlite"].
Definition disk : gmap path node :=
  {[ [] := Dir; ["out"] := Dir; target := File (DuckDB [people]) ]}.
Definition importer (_ : gmap path node) (_ _ : path) : option content * bool :=
  (Some (DuckDB [codes]), true).
Definition attach (_ : gmap path node) (_ : path) : option (list table) := None.

(** The file system after a migration to a target that did not exist. *)
Definition fresh : path := ["new"; "db1.duckdb"].
Definition disk_after : gmap path node :=
  Eval vm_compute in
    (convert_sqlite_to_duckdb importer attach source fresh false disk).1.

End Scenario.

(** * Further inputs

    A table with a column that may hold NULL and a NOT NULL column that
    no constraint names, runs of [main] that write the compatibility
    log, and a directory of query files. *)

Module Fixtures.

Import Py Engine duckdb_pipeline.







(** Two query files with the same gold queries, one of them a hybrid
    file, and a hybrid file without a counterpart. *)
Definition plain_csv : path := ["questions"; "BirdQueries.csv"].
Definition hybrid_csv : path := ["questions"; "Bird_HybridQueries.csv"].
Definition lone_csv : path := ["questions"; "Swan_HybridQueries.csv"].
Definition reader (p : path) : result (list (list string)) :=
  if bool_decide (p = plain_csv)
  then Ok [["db1"; "Q1"; "e"; "SELECT 1"]; []; ["db2 "; "Q2"; "e"; "SELECT 2"]]
  else if bool_decide (p = hybrid_csv)
  then Ok [["db1"; "H1"; "x"; "SELECT 1"]; ["db2"; "H2"; "y"; "SELECT 2"]]
  else Raise OSError.

End Fixtures.

(** * Scalar equivalence *)

Section ScalarFacts.

Import Py duckdb_pipeline.



(** Text never makes [_num] raise: every failure of the parse is caught. *)
Lemma _num_str_ok (s : string) : ∃ o, _num (PStr s) = Ok o.
Proof. unfold _num. repeat case_match; eauto. Qed.


(** [scalar_equal] past its first two tests. *)
Lemma scalar_equal_plain (a b : pyval) :
  untag_bytes a = a → untag_bytes b = b → is_tuple a = false → is_tuple b = false →
  scalar_equal a b =
    (na ← _num a; nb ← _num b;
     match na, nb with
     | Some x, Some y => Ok (PyFloat.isclose x y PyFloat.tol PyFloat.tol)
     | _, _ => Ok (py_eq a b)
     end).
Proof.
  intros Ua Ub Ta Tb. unfold scalar_equal. rewrite Ua, Ub, Ta, Tb.
  by destruct a, b.
Qed.



(** C3 as the code has it: a boolean is kept out of the numeric coercion,
    so it is never compared to text and never compared within the
    tolerance; what remains is Python's exact [==], under which [True]
    equals the number 1 and [False] the number 0. *)
Theorem bool_compared_exactly (b : bool) :
  _num (PBool b) = Ok None ∧
  (∀ s, scalar_equal (PBool b) (PStr s) = Ok false) ∧
  (∀ z, scalar_equal (PBool b) (PInt z) =
        match PyFloat.of_int z with
        | Some _ => Ok (Z.eqb (if b then 1 else 0) z)
        | None => Raise OverflowError
        end) ∧
  (∀ f, scalar_equal (PBool b) (PFloat f) =
        Ok (exact_eqb (XFin (if b then 1 else 0) 1) (exact_of_float f))).
Proof.
  split; [done|]. split; [|split].
  - intros s. rewrite scalar_equal_plain by done.
    destruct (_num_str_ok s) as [o Ho]. rewrite Ho. done.
  - intros z. unfold scalar_equal; simpl.
    destruct (PyFloat.of_int z); simpl; [|done].
    f_equal. destruct b; f_equal; lia.
  - intros f. done.
Qed.

(** C3, the claim as stated fails: [True] against the number 1 and
    [False] against the number 0 are reported equal. *)
Lemma bool_conflated_with_number :
  scalar_equal (PBool true) (PInt 1) = Ok true ∧
  scalar_equal (PBool false) (PInt 0) = Ok true.
Proof. split; vm_compute; reflexivity. Qed.

(** What the exclusion does achieve: text and near values. *)
Example bool_against_text_and_near_values :
  scalar_equal (PBool true) (PStr "1") = Ok false ∧
  scalar_equal (PInt 1) (PStr "1") = Ok true ∧
  scalar_equal (PBool true) (PFloat (PyFloat.of_decimal false 10000000001 (-10))) = Ok false ∧
  scalar_equal (PInt 1) (PFloat (PyFloat.of_decimal false 10000000001 (-10))) = Ok true.
Proof. repeat split; vm_compute; reflexivity. Qed.



(** The canonical form of a value equals itself unless it coerces to a
    NaN: the shapes [_jsonable_scalar] returns. *)
Lemma py_eq_str_refl (s : string) : py_eq (PStr s) (PStr s) = true.
Proof. simpl. apply String.eqb_refl. Qed.




End ScalarFacts.

(** * Unordered comparison of result sets *)

Section CounterFacts.

Import Py.









End CounterFacts.

Section UnorderedFacts.

Import Py duckdb_pipeline.

Variable repr : pyval → string.

Lemma json_scalar_total (v : pyval) : is_Some (json_dumps repr (_jsonable_scalar repr v)).
Proof. destruct v as [ | | | | | | | | | |ty [ | |s] rp]; simpl; eauto. Qed.

Lemma json_list_total (l : list pyval) :
  Forall (λ v, is_Some (json_dumps repr v)) l → is_Some (json_dumps repr (PList l)).
Proof.
  induction 1 as [|v l [s Hs] _ IH]; [by eexists|].
  simpl in *. rewrite Hs. simpl.
  destruct ((fix go (l : list pyval) : option (list string) :=
               match l with
               | [] => Some []
               | v :: l' => s ← json_dumps repr v; r ← go l'; Some (s :: r)
               end) l) as [r|]; simpl in *; [by eexists|].
  by destruct IH.
Qed.

(** The stable key of a row is always defined: every canonical scalar
    is JSON serializable. *)
Lemma row_key_total (row : list pyval) : row_key repr row = Some (key_of_row repr row).
Proof.
  unfold key_of_row.
  destruct (json_list_total (map (_jsonable_scalar repr) row)) as [k Hk].
  - apply Forall_forall. intros v Hv. apply list_elem_of_In, in_map_iff in Hv.
    destruct Hv as (x & <- & _). apply json_scalar_total.
  - unfold row_key, _stable_key. by rewrite Hk.
Qed.

Lemma rows_as_counter_total (rows : list (list pyval)) :
  _rows_as_counter repr rows = Some (Counter (key_of_row repr <$> rows)).
Proof.
  unfold _rows_as_counter.
  assert (mapM (row_key repr) rows = Some (key_of_row repr <$> rows)) as ->; [|done].
  apply mapM_Some. induction rows as [|r rows IH]; constructor; [apply row_key_total|done].
Qed.

Lemma exp_rows_lists (erows : list (list pyval)) : exp_rows (PList <$> erows) = Some erows.
Proof.
  induction erows as [|r erows IH]; [done|].
  change (exp_rows (PList <$> r :: erows))
    with (rs ← exp_rows (PList <$> erows); Some (r :: rs)).
  by rewrite IH.
Qed.

Lemma rows_equal_unordered_counters (erows got : list (list pyval)) :
  rows_equal_unordered repr (PList (PList <$> erows)) got =
  Some (bool_decide (Counter (key_of_row repr <$> erows) = Counter (key_of_row repr <$> got))).
Proof.
  unfold rows_equal_unordered. cbv beta iota.
  rewrite exp_rows_lists, !rows_as_counter_total. done.
Qed.


End UnorderedFacts.


(** * The rewrite rules *)

Section RewriteFacts.

Import Re duckdb_pipeline.

(** C4, the code at the patterns of the claim.  The templates of the
    birthday rule and of the two grouping rules are written with doubled
    backslashes inside raw string literals; to [re] a doubled backslash is
    one literal backslash, so these three templates hold no group
    reference (the template of the year rule does).  Whatever was matched,
    they expand to the same text, in which a backslash and a digit stand
    where the current-timestamp token and the table qualifier were. *)
Theorem rewrite_templates_drop_groups :
  (∀ c, expand (parse_template TPlain strftime_template) c =
        "CAST(STRFTIME(" +:+ default "" (group c 1) +:+ ", '%Y') AS INTEGER)") ∧
  (∀ c, expand (parse_template TPlain birthday_template) c =
        "\1 - CAST(\2birthday AS TIMESTAMP)") ∧
  (∀ c, expand (parse_template TPlain player_name_template) c =
        "SELECT ANY_VALUE(\1player_name) AS player_name") ∧
  (∀ c, expand (parse_template TPlain team_long_name_template) c =
        "SELECT ANY_VALUE(\1team_long_name) AS team_long_name") ∧
  rewrite_for_duckdb "SELECT CURRENT_TIMESTAMP - t1.birthday FROM Player AS t1" =
    "SELECT \1 - CAST(\2birthday AS TIMESTAMP) FROM Player AS t1" ∧
  rewrite_for_duckdb "SELECT t1.player_name FROM Player AS t1" =
    "SELECT ANY_VALUE(\1player_name) AS player_name FROM Player AS t1" ∧
  rewrite_for_duckdb "SELECT teamInfo.team_long_name FROM Team AS teamInfo" =
    "SELECT ANY_VALUE(\1team_long_name) AS team_long_name FROM Team AS teamInfo".
Proof.
  split; [|repeat split; vm_compute; reflexivity].
  intros c. vm_compute. destruct (group c 1); reflexivity.
Qed.

(** The year rule, whose template is written with single backslashes,
    keeps what it matched. *)
Example rewrite_year_rule :
  rewrite_for_duckdb "SELECT STRFTIME(a, '%Y') - STRFTIME(b.c, '%Y') FROM t" =
    "SELECT CAST(STRFTIME(a, '%Y') AS INTEGER) - CAST(STRFTIME(b.c, '%Y') AS INTEGER) FROM t".
Proof. vm_compute. reflexivity. Qed.

End RewriteFacts.

(** * The evaluation harness *)

Section HarnessFacts.

Import Py duckdb_pipeline.

Variable repr : pyval → string.
Variable sqlglot_transpile : string → option (list string).
Variable sqlite_is_file : string → bool.
Variable sqlite_execute : string → string → option (list (list pyval)).
Variable duck_is_file : string → string → bool.
Variable duck_execute : string → string → string → duck_outcome.
Variable args : Args.
Variable expected : gmap string pyval.

#[local] Abbreviation eval_row := (eval_row repr sqlglot_transpile sqlite_is_file sqlite_execute
                        duck_is_file duck_execute args expected).
#[local] Abbreviation eval_rows := (eval_rows repr sqlglot_transpile sqlite_is_file sqlite_execute
                         duck_is_file duck_execute args expected).
#[local] Abbreviation _evaluate := (_evaluate repr sqlglot_transpile sqlite_is_file sqlite_execute
                         duck_is_file duck_execute args expected).
#[local] Abbreviation run_query := (run_query repr sqlglot_transpile duck_is_file duck_execute args).

Lemma bump_lookup f db (m : gmap string EvalStats) db' :
  bump f db m !! db' =
  if decide (db' = db) then Some (f (default new_stats (m !! db))) else m !! db'.
Proof.
  unfold bump. case_decide as E.
  - subst. by rewrite lookup_insert_eq.
  - by rewrite lookup_insert_ne.
Qed.

Lemma stats_balanced (m : gmap string EvalStats) db :
  all_balanced m → balanced (default new_stats (m !! db)).
Proof.
  intros H. destruct (m !! db) as [s|] eqn:E; simpl; [by eapply H|].
  split; simpl; lia.
Qed.

Lemma counted_balanced db m m' : counted db m m' → all_balanced m → all_balanced m'.
Proof.
  intros Hc Hm db' s. pose proof (stats_balanced m db Hm) as [H1 H2].
  destruct Hc; rewrite !bump_lookup; case_decide; try (by apply Hm);
    rewrite ?decide_True by done; simpl; intros [= <-];
    split; simpl; lia.
Qed.

(** The part of the loop body after the total was counted. *)
Lemma run_query_cases root rc cap db_id qid gold_sql exp srows st st' :
  run_query root rc cap db_id qid gold_sql exp srows st = Ok st' →
  (by_db st' = bump inc_exec_errors db_id (by_db st) ∧ compatible st' = compatible st) ∨
  (by_db st' = bump inc_exec_errors db_id (bump inc_transpile_errors db_id (by_db st)) ∧
   compatible st' = compatible st) ∨
  (by_db st' = bump inc_mismatches db_id (by_db st) ∧ compatible st' = compatible st) ∨
  (by_db st' = bump inc_correct db_id (by_db st) ∧
   (compatible st' = compatible st ∨
    rc = true ∧ compatible st' = compatible st ∪ {[(db_id, qid)]})).
Proof.
  unfold run_query. intros H.
  destruct (transpile_sql sqlglot_transpile gold_sql) as [duck_sql|];
    [|simplify_eq/=; eauto].
  destruct (negb (duck_is_file root db_id)); [simplify_eq/=; eauto|].
  destruct (duck_execute root db_id _) as [ | |got]; [done|simplify_eq/=; eauto|].
  destruct (if compare_to_gold args then _ else _) as [[|]|e];
    [|simplify_eq/=; eauto 6|done].
  simpl in H. do 3 right.
  destruct rc; [|simplify_eq/=; eauto].
  destruct (out_compatible args); [|simplify_eq/=; eauto].
  destruct (_canonicalize_jsonable_rows repr _) as [ans|]; [|done].
  destruct (out_broken args); [destruct cap|]; simplify_eq/=; eauto.
Qed.


(** A row that is not selected leaves the pass as it is. *)
Lemma eval_row_unselected root rt rc cap st base idx row :
  selected args rt base idx row = false →
  eval_row root rt rc cap st (base, idx, row) = Ok st.
Proof. intros H. unfold duckdb_pipeline.eval_row. by rewrite H. Qed.

Lemma selected_restrict keys base idx row :
  selected args (Some keys) base idx row =
  selected args None base idx row && bool_decide (row_key_of base idx row ∈ keys).
Proof. unfold selected. by rewrite andb_true_r. Qed.

Lemma eval_row_outside root keys rc cap st base idx row :
  row_key_of base idx row ∉ keys →
  eval_row root (Some keys) rc cap st (base, idx, row) = Ok st.
Proof.
  intros H. apply eval_row_unselected. rewrite selected_restrict.
  rewrite (bool_decide_eq_false_2 _ H). apply andb_false_r.
Qed.

Lemma eval_row_inside root keys rc cap st base idx row :
  row_key_of base idx row ∈ keys →
  eval_row root (Some keys) rc cap st (base, idx, row) =
  eval_row root None rc cap st (base, idx, row).
Proof.
  intros H. unfold duckdb_pipeline.eval_row. rewrite selected_restrict.
  by rewrite (bool_decide_eq_true_2 _ H), andb_true_r.
Qed.

Lemma eval_rows_cons root rt rc cap item items st :
  eval_rows root rt rc cap (item :: items) st =
  (st' ← eval_row root rt rc cap st item; eval_rows root rt rc cap items st').
Proof. done. Qed.

(** A restricted pass is the unrestricted pass over the rows whose key
    lies in the restriction set. *)
Lemma eval_rows_filter root keys rc cap items st :
  eval_rows root (Some keys) rc cap items st =
  eval_rows root None rc cap (filter (λ it, item_key it ∈ keys) items) st.
Proof.
  revert st. induction items as [|[[base idx] row] items IH]; intros st; [done|].
  rewrite filter_cons, eval_rows_cons. unfold item_key at 1. cbn [fst snd].
  destruct (decide (row_key_of base idx row ∈ keys)) as [Hin|Hout].
  - rewrite eval_rows_cons, eval_row_inside by done.
    destruct (eval_row root None rc cap st (base, idx, row)); simpl; [apply IH|done].
  - rewrite eval_row_outside by done. apply IH.
Qed.

(** One row: the pass is unchanged, or the row is counted once in the
    statistics of its database; the compatible set grows only by the key
    of a row counted as correct, and only when it is recorded. *)
Lemma eval_row_cases root rt rc cap st item st' :
  eval_row root rt rc cap st item = Ok st' →
  (by_db st' = by_db st ∧ compatible st' = compatible st) ∨
  (counted (item_key item).1 (by_db st) (by_db st') ∧
   (compatible st' = compatible st ∨
    rc = true ∧ compatible st' = compatible st ∪ {[item_key item]} ∧
    by_db st' = bump inc_correct (item_key item).1 (bump inc_total (item_key item).1 (by_db st)))).
Proof.
  destruct item as [[base idx] row]. unfold duckdb_pipeline.eval_row, item_key. cbn [fst snd].
  destruct (negb (selected args rt base idx row)); [intros [= <-]; by left|].
  destruct (row_key_of base idx row) as [db_id qid] eqn:Ek. cbn [fst snd].
  assert (Hrun : ∀ exp srows st0,
    by_db st0 = bump inc_total db_id (by_db st) → compatible st0 = compatible st →
    run_query root rc cap db_id qid (default "" (row !! 3)) exp srows st0 = Ok st' →
    counted db_id (by_db st) (by_db st') ∧
    (compatible st' = compatible st ∨
     rc = true ∧ compatible st' = compatible st ∪ {[(db_id, qid)]} ∧
     by_db st' = bump inc_correct db_id (bump inc_total db_id (by_db st)))).
  { intros exp srows st0 Hb Hc Hq. apply run_query_cases in Hq.
    rewrite Hb, Hc in Hq.
    destruct Hq as [[-> ->]|[[-> ->]|[[-> ->]|[-> Hq]]]].
    - split; [constructor|by left].
    - split; [constructor|by left].
    - split; [constructor|by left].
    - split; [constructor|]. destruct Hq as [->|[-> ->]]; [by left|by right]. }
  destruct (compare_to_gold args).
  - destruct (expected !! qid) as [exp|]; cbv beta iota; [|intros [= <-]; by left].
    destruct exp; cbv beta iota; try (intros [= <-]; by left); intros H; right;
      by refine (Hrun _ _ _ _ _ H).
  - destruct (negb (sqlite_is_file db_id)); cbv beta iota.
    { intros [= <-]. right. split; [constructor|by left]. }
    destruct (sqlite_execute db_id _) as [srows|]; cbv beta iota.
    + intros H. right. by refine (Hrun _ _ _ _ _ H).
    + intros [= <-]. right. split; [constructor|by left].
Qed.

Lemma eval_row_balanced root rt rc cap st item st' :
  eval_row root rt rc cap st item = Ok st' →
  all_balanced (by_db st) → all_balanced (by_db st').
Proof.
  intros H Hb. apply eval_row_cases in H. destruct H as [[-> _]|[Hc _]]; [done|].
  by eapply counted_balanced.
Qed.

Lemma eval_rows_balanced root rt rc cap items st st' :
  eval_rows root rt rc cap items st = Ok st' →
  all_balanced (by_db st) → all_balanced (by_db st').
Proof.
  revert st. induction items as [|item items IH]; intros st.
  - by intros [= <-].
  - rewrite eval_rows_cons.
    destruct (eval_row root rt rc cap st item) as [st1|] eqn:E; simpl; [|done].
    intros H Hb. eapply IH; [done|]. by eapply eval_row_balanced.
Qed.

Lemma eval_rows_app root rt rc cap l1 l2 st :
  eval_rows root rt rc cap (l1 ++ l2) st =
  (st1 ← eval_rows root rt rc cap l1 st; eval_rows root rt rc cap l2 st1).
Proof.
  revert st. induction l1 as [|x l1 IH]; intros st; [done|].
  rewrite <- app_comm_cons, !eval_rows_cons.
  destruct (eval_row root rt rc cap st x); simpl; [apply IH|done].
Qed.

(** Every key of the compatible set was put there by a row of the pass
    that was counted as correct at that moment. *)
Lemma compatible_origin root rt rc cap items st0 p :
  compatible st0 = ∅ →
  eval_rows root rt rc cap items st0 = Ok p →
  ∀ key, key ∈ compatible p →
    ∃ pre item post st st',
      items = (pre ++ item :: post)%list ∧ item_key item = key ∧
      eval_rows root rt rc cap pre st0 = Ok st ∧
      eval_row root rt rc cap st item = Ok st' ∧
      by_db st' = bump inc_correct key.1 (bump inc_total key.1 (by_db st)).
Proof.
  intros H0. revert p. induction items as [|x items IH] using rev_ind; intros p.
  - simpl. intros [= <-] key. rewrite H0. set_solver.
  - rewrite eval_rows_app.
    destruct (eval_rows root rt rc cap items st0) as [st|] eqn:E; simpl; [|done].
    destruct (eval_row root rt rc cap st x) as [st'|] eqn:Ex; simpl; [|done].
    intros [= <-] key Hkey.
    assert (Hold : key ∈ compatible st →
      ∃ pre item post st1 st2,
        (items ++ [x] = pre ++ item :: post)%list ∧ item_key item = key ∧
        eval_rows root rt rc cap pre st0 = Ok st1 ∧
        eval_row root rt rc cap st1 item = Ok st2 ∧
        by_db st2 = bump inc_correct key.1 (bump inc_total key.1 (by_db st1))).
    { intros Hin. destruct (IH st eq_refl key Hin) as (pre & item & post & s1 & s2 & -> & ?).
      exists pre, item, (post ++ [x])%list, s1, s2. by rewrite <- app_assoc. }
    pose proof (eval_row_cases _ _ _ _ _ _ _ Ex) as [[_ Hc]|[_ [Hc|(_ & Hc & Hb)]]].
    + rewrite Hc in Hkey. by apply Hold.
    + rewrite Hc in Hkey. by apply Hold.
    + rewrite Hc in Hkey. apply elem_of_union in Hkey as [Hkey|Hkey]; [by apply Hold|].
      apply elem_of_singleton in Hkey. subst key.
      exists items, x, [], st, st'. done.
Qed.


Lemma eval_row_short root rt rc cap st base idx row :
  (length row < 4)%nat → eval_row root rt rc cap st (base, idx, row) = Ok st.
Proof.
  intros H. apply eval_row_unselected. unfold selected.
  apply Nat.ltb_lt in H. by rewrite H.
Qed.

Lemma eval_row_no_expectation root rt rc cap st base idx row :
  compare_to_gold args = true →
  expected !! (row_key_of base idx row).2 = None →
  eval_row root rt rc cap st (base, idx, row) = Ok st.
Proof.
  intros Hg He. unfold duckdb_pipeline.eval_row.
  destruct (negb (selected args rt base idx row)); [done|].
  destruct (row_key_of base idx row) as [db_id qid]. simpl in He.
  by rewrite Hg, He.
Qed.

(** C10: the statistics of every database after a pass satisfy
    [total = correct + mismatches + exec_errors] and
    [transpile_errors <= exec_errors]; a row with fewer than four columns,
    a row whose key is outside the restriction set and a row without an
    expected answer leave the pass as it is. *)
Theorem eval_stats_accounting csvs out root rt rc cap p :
  _evaluate csvs out root rt rc cap = Ok p →
  (∀ db s, by_db p !! db = Some s →
     total s = correct s + mismatches s + exec_errors s ∧
     (transpile_errors s ≤ exec_errors s)%nat) ∧
  (∀ st base idx row, (length row < 4)%nat →
     eval_row root rt rc cap st (base, idx, row) = Ok st) ∧
  (∀ st keys base idx row, rt = Some keys → row_key_of base idx row ∉ keys →
     eval_row root rt rc cap st (base, idx, row) = Ok st) ∧
  (∀ st base idx row, compare_to_gold args = true →
     expected !! (row_key_of base idx row).2 = None →
     eval_row root rt rc cap st (base, idx, row) = Ok st).
Proof.
  intros H. split; [|split; [|split]].
  - apply (eval_rows_balanced _ _ _ _ _ _ _ H). intros db s. simpl. by rewrite lookup_empty.
  - intros. by apply eval_row_short.
  - intros st keys base idx row -> Hk. by apply eval_row_outside.
  - intros. by apply eval_row_no_expectation.
Qed.

(** C2: in the two phases of [main], the second pass is run with the
    compatible set of the first pass as its restriction set.  A row whose
    key is not in that set leaves the pass as it is, so the second pass is
    the unrestricted pass over the rows whose key is in the set; and every
    key of the set is the key of a row that the first pass counted as
    correct. *)
Theorem second_pass_within_compatible csvs root1 root2 nullify_all r :
  drop_columns args = true →
  main_phases repr sqlglot_transpile sqlite_is_file sqlite_execute duck_is_file duck_execute
    args expected csvs root1 root2 nullify_all = Ok r →
  ∃ p1 p2,
    _evaluate csvs [] root1 None true (out_broken args) = Ok p1 ∧
    baseline_compatible r = compatible p1 ∧
    _evaluate csvs (written p1) root2 (Some (compatible p1)) false false = Ok p2 ∧
    dropped_by_db r = Some (by_db p2) ∧
    (∀ st item, item_key item ∉ compatible p1 →
       eval_row root2 (Some (compatible p1)) false false st item = Ok st) ∧
    eval_rows root2 None false false
      (filter (λ it, item_key it ∈ compatible p1) (numbered csvs))
      {| by_db := ∅; compatible := ∅; compatible_records := ∅; written := written p1 |}
      = Ok p2 ∧
    (∀ key, key ∈ compatible p1 →
       ∃ pre item post st st',
         numbered csvs = (pre ++ item :: post)%list ∧ item_key item = key ∧
         eval_rows root1 None true (out_broken args) pre
           {| by_db := ∅; compatible := ∅; compatible_records := ∅; written := [] |} = Ok st ∧
         eval_row root1 None true (out_broken args) st item = Ok st' ∧
         by_db st' = bump inc_correct key.1 (bump inc_total key.1 (by_db st))).
Proof.
  intros Hd. unfold main_phases. rewrite Hd. simpl negb. rewrite andb_false_r.
  destruct (out_broken args && negb (out_compatible args)); [done|].
  simpl orb.
  destruct (_evaluate csvs [] root1 None true (out_broken args)) as [p1|] eqn:E1; [|done].
  simpl. destruct nullify_all as [[]|]; [|done]. simpl.
  destruct (_evaluate csvs (written p1) root2 (Some (compatible p1)) false false)
    as [p2|] eqn:E2; [|done].
  simpl. intros Hr. exists p1, p2.
  assert (baseline_compatible r = compatible p1 ∧ dropped_by_db r = Some (by_db p2)) as [Hc Hb].
  { destruct (out_broken args && out_compatible args).
    - destruct (_evaluate csvs (written p2) root2 _ true false); by simplify_eq/=.
    - by simplify_eq/=. }
  split; [done|]. split; [done|]. split; [done|]. split; [done|]. split; [|split].
  - intros st [[base idx] row] Hk. by apply eval_row_outside.
  - unfold duckdb_pipeline._evaluate in E2. by rewrite eval_rows_filter in E2.
  - intros key Hkey. by eapply compatible_origin.
Qed.

End HarnessFacts.
Section HarnessWitnesses.

Import Py duckdb_pipeline.

Lemma eval_stats_accounting_witness :
  ∃ s, by_db Scenario.the_baseline !! "db1" = Some s ∧ total s = 3 ∧
       total s = correct s + mismatches s + exec_errors s ∧
       (transpile_errors s ≤ exec_errors s)%nat.
Proof.
  assert (E : _evaluate Scenario.repr Scenario.transpile Scenario.sqlite_is_file Scenario.sqlite_execute
                Scenario.duck_is_file Scenario.duck_execute Scenario.args Scenario.expected Scenario.csvs []
                "baseline" None true false = Ok Scenario.the_baseline).
  { vm_compute. reflexivity. }
  assert (Es : by_db Scenario.the_baseline !! "db1" =
               Some {| total := 3; correct := 1; exec_errors := 1;
                       transpile_errors := 0; mismatches := 1 |}).
  { vm_compute. reflexivity. }
  eexists. split; [exact Es|]. split; [reflexivity|].
  exact (proj1 (eval_stats_accounting Scenario.repr Scenario.transpile Scenario.sqlite_is_file
                  Scenario.sqlite_execute Scenario.duck_is_file Scenario.duck_execute Scenario.args
                  Scenario.expected Scenario.csvs [] "baseline" None true false Scenario.the_baseline E)
               "db1" _ Es).
Defined.

Lemma second_pass_within_compatible_witness :
  ∃ p1 p2,
    baseline_compatible Scenario.the_report = compatible p1 ∧
    dropped_by_db Scenario.the_report = Some (by_db p2) ∧
    ("db1", "q:1") ∈ baseline_compatible Scenario.the_report ∧
    ("db1", "q:2") ∉ baseline_compatible Scenario.the_report.
Proof.
  assert (E : main_phases Scenario.repr Scenario.transpile Scenario.sqlite_is_file Scenario.sqlite_execute
                Scenario.duck_is_file Scenario.duck_execute Scenario.args Scenario.expected Scenario.csvs
                "baseline" "dropped" (Ok ()) = Ok Scenario.the_report).
  { vm_compute. reflexivity. }
  destruct (second_pass_within_compatible Scenario.repr Scenario.transpile Scenario.sqlite_is_file
              Scenario.sqlite_execute Scenario.duck_is_file Scenario.duck_execute Scenario.args
              Scenario.expected Scenario.csvs "baseline" "dropped" (Ok ()) Scenario.the_report
              (eq_refl true) E)
    as (p1 & p2 & _ & Hc & _ & Hb & _).
  exists p1, p2. split; [exact Hc|]. split; [exact Hb|].
  split.
  - apply (bool_decide_unpack _). vm_compute. exact I.
  - apply (bool_decide_unpack _). vm_compute. exact I.
Defined.

End HarnessWitnesses.

(** * The migration engine *)

Section MigrationFacts.

Import duckdb_pipeline.

Variable sqlite2duckdb : gmap path node → path → path → option content * bool.
Variable attach_all_varchar : gmap path node → path → option (list Engine.table).

#[local] Abbreviation convert := (convert_sqlite_to_duckdb sqlite2duckdb attach_all_varchar).

Lemma mkdir_steps_raise (qs : list path) e : foldl mkdir_step (Raise e) qs = Raise e.
Proof. induction qs as [|q qs IH]; [done|]. simpl. apply IH. Qed.

Lemma mkdir_steps_noop (qs : list path) (f : gmap path node) :
  (∀ q, q ∈ qs → f !! q = Some Dir) → foldl mkdir_step (Ok f) qs = Ok f.
Proof.
  induction qs as [|q qs IH]; intros H; [done|]. simpl.
  rewrite (H q) by set_solver. rewrite insert_id by (apply H; set_solver).
  apply IH. intros q' Hq'. apply H. set_solver.
Qed.

Lemma mkdir_steps_dirs (qs : list path) (f f' : gmap path node) :
  foldl mkdir_step (Ok f) qs = Ok f' →
  (∀ q, q ∈ qs → f' !! q = Some Dir) ∧
  (∀ q, f !! q = Some Dir → f' !! q = Some Dir) ∧
  (∀ q, q ∉ qs → f' !! q = f !! q).
Proof.
  revert f. induction qs as [|q qs IH]; intros f; simpl.
  - intros [= <-]. set_solver.
  - destruct (f !! q) as [[|c]|] eqn:E; simpl.
    3: { intros H. destruct (IH _ H) as (H1 & H2 & H3). split; [|split].
         - intros q' [->|Hq']%elem_of_cons; [|by apply H1].
           apply H2. apply lookup_insert_eq.
         - intros q' Hq'. apply H2. destruct (decide (q' = q)) as [->|Hne];
             [apply lookup_insert_eq|by rewrite lookup_insert_ne].
         - intros q' Hq'. rewrite H3 by set_solver. apply lookup_insert_ne. set_solver. }
    2: { by rewrite mkdir_steps_raise. }
    intros H. destruct (IH _ H) as (H1 & H2 & H3). split; [|split].
    + intros q' [->|Hq']%elem_of_cons; [|by apply H1].
      apply H2. apply lookup_insert_eq.
    + intros q' Hq'. apply H2. destruct (decide (q' = q)) as [->|Hne];
        [apply lookup_insert_eq|by rewrite lookup_insert_ne].
    + intros q' Hq'. rewrite H3 by set_solver. apply lookup_insert_ne. set_solver.
Qed.

Lemma mkdir_parents_noop (p : path) (f : gmap path node) :
  (∀ q, q ∈ prefixes p → f !! q = Some Dir) → mkdir_parents p f = Ok f.
Proof. apply mkdir_steps_noop. Qed.

Lemma prefixes_length (p q : path) : q ∈ prefixes p → (length q ≤ length p)%nat.
Proof.
  revert q. induction p as [|x p IH]; intros q; simpl.
  - intros ->%list_elem_of_singleton. done.
  - intros [->|H]%elem_of_cons; [simpl; lia|].
    apply list_elem_of_fmap in H as (q' & -> & Hq'). simpl. specialize (IH _ Hq'). lia.
Qed.

Lemma parent_length (p : path) : p ≠ [] → (length (parent p) < length p)%nat.
Proof.
  intros H. unfold parent. destruct (exists_last H) as (l & a & ->).
  rewrite removelast_last, length_app. simpl. lia.
Qed.

Lemma not_above_itself (p : path) : p ≠ [] → p ∉ prefixes (parent p).
Proof.
  intros H Hin. apply prefixes_length in Hin. pose proof (parent_length p H). lia.
Qed.


(** What a call that does not raise leaves behind: the target exists,
    the directories above it exist. *)
Lemma fallback_result (sqlite_db duck_db : path) (f f' : gmap path node) :
  fallback attach_all_varchar sqlite_db duck_db f = (f', None) →
  is_Some (f' !! duck_db) ∧ ∀ q, q ≠ duck_db → f' !! q = f !! q.
Proof.
  unfold fallback, _safe_unlink, _convert_sqlite_to_duckdb_with_all_varchar.
  intros H.
  assert (Hgo : ∀ f0, (∀ q, q ≠ duck_db → f0 !! q = f !! q) →
    (let f1 := <[duck_db := File (DuckDB [])]> f0 in
     match attach_all_varchar f1 sqlite_db with
     | Some tables => (<[duck_db := File (DuckDB tables)]> f1, None)
     | None => (f1, Some DatabaseError)
     end) = (f', None) →
    is_Some (f' !! duck_db) ∧ ∀ q, q ≠ duck_db → f' !! q = f !! q).
  { intros f0 H0. cbv zeta. destruct (attach_all_varchar _ _); [|done].
    intros [= <-]. split; [rewrite lookup_insert_eq; by eexists|].
    intros q Hq. rewrite !lookup_insert_ne by done. by apply H0. }
  destruct (f !! duck_db) as [[|c]|] eqn:E; simpl in H.
  - done.
  - rewrite lookup_delete_eq in H. apply (Hgo (delete duck_db f)); [|done].
    intros q Hq. by rewrite lookup_delete_ne.
  - rewrite E in H. by apply (Hgo f).
Qed.

Lemma convert_result (sqlite_db duck_db : path) (force : bool) (f f' : gmap path node) :
  convert sqlite_db duck_db force f = (f', None) →
  is_Some (f' !! duck_db) ∧ dirs_above duck_db f'.
Proof.
  unfold convert_sqlite_to_duckdb.
  destruct (mkdir_parents (parent duck_db) f) as [f1|] eqn:Em; [|done].
  apply mkdir_steps_dirs in Em as (Hd & _ & _).
  assert (Hconv : ∀ f2, (∀ q, q ≠ duck_db → f2 !! q = f1 !! q) → duck_db ≠ [] →
    (if String.eqb (stem sqlite_db) "european_football_2"
     then fallback attach_all_varchar sqlite_db duck_db f2
     else
       let '(written, ok) := sqlite2duckdb f2 sqlite_db duck_db in
       let f3 := match written with
                 | Some c => <[duck_db := File c]> f2
                 | None => f2
                 end in
       if ok then
         match f3 !! duck_db with
         | Some (File (DuckDB (_ :: _))) => (f3, None)
         | _ => fallback attach_all_varchar sqlite_db duck_db f3
         end
       else fallback attach_all_varchar sqlite_db duck_db f3) = (f', None) →
    is_Some (f' !! duck_db) ∧ dirs_above duck_db f').
  { intros f2 H2 Hne.
    assert (Hfb : ∀ f3, (∀ q, q ≠ duck_db → f3 !! q = f1 !! q) →
      fallback attach_all_varchar sqlite_db duck_db f3 = (f', None) →
      is_Some (f' !! duck_db) ∧ dirs_above duck_db f').
    { intros f3 H3 Hf. apply fallback_result in Hf as [Hs Hq]. split; [done|].
      intros q Hin. assert (q ≠ duck_db) by (intros ->; by apply (not_above_itself duck_db)).
      rewrite Hq, H3 by done. by apply Hd. }
    destruct (String.eqb (stem sqlite_db) "european_football_2"); [by apply (Hfb f2)|].
    destruct (sqlite2duckdb f2 sqlite_db duck_db) as [written ok]. cbv zeta.
    set (f3 := match written with Some c => <[duck_db := File c]> f2 | None => f2 end) in *.
    assert (H3 : ∀ q, q ≠ duck_db → f3 !! q = f1 !! q).
    { intros q Hq. subst f3. destruct written; [rewrite lookup_insert_ne by done|]; by apply H2. }
    destruct ok; [|by apply (Hfb f3)].
    destruct (f3 !! duck_db) as [[|[[|t ts]|raw]]|] eqn:E3; try by apply (Hfb f3).
    intros [= <-]. split; [rewrite E3; by eexists|].
    intros q Hin. assert (q ≠ duck_db) by (intros ->; by apply (not_above_itself duck_db)).
    rewrite H3 by done. by apply Hd. }
  destruct (decide (duck_db = [])) as [->|Hne].
  { assert (H0 : f1 !! [] = Some Dir) by (apply Hd; simpl; set_solver).
    rewrite H0. destruct force; simpl.
    - unfold _safe_unlink. by rewrite H0.
    - intros [= <-]. split; [by eexists|done]. }
  destruct (f1 !! duck_db) as [n|] eqn:E1.
  - destruct force; simpl.
    + unfold _safe_unlink. rewrite E1. destruct n as [|c]; [done|].
      apply Hconv; [|done]. intros q Hq. by rewrite lookup_delete_ne.
    + intros [= <-]. split; [by eexists|done].
  - by apply Hconv.
Qed.

(** C8: when the target exists and overwrite is not forced, the call
    returns at once and the file system is as it was; and after a call
    without forced overwrite that did not raise, a second such call
    changes nothing, so the table set of the target is the one the first
    call left. *)
Theorem migrate_idempotent (sqlite_db duck_db : path) (f : gmap path node) :
  (∀ n, f !! duck_db = Some n → dirs_above duck_db f →
     convert sqlite_db duck_db false f = (f, None)) ∧
  (∀ f1, convert sqlite_db duck_db false f = (f1, None) →
     convert sqlite_db duck_db false f1 = (f1, None) ∧
     ∀ f2 e, convert sqlite_db duck_db false f1 = (f2, e) →
       table_set f2 duck_db = table_set f1 duck_db).
Proof.
  assert (Hnoop : ∀ g n, g !! duck_db = Some n → dirs_above duck_db g →
            convert sqlite_db duck_db false g = (g, None)).
  { intros g n Hn Hd. unfold convert_sqlite_to_duckdb.
    rewrite mkdir_parents_noop by done. by rewrite Hn. }
  split; [by apply Hnoop|].
  intros f1 H1. apply convert_result in H1 as [[n Hn] Hd].
  rewrite (Hnoop f1 n Hn Hd). split; [done|]. by intros f2 e [= <- _].
Qed.

End MigrationFacts.

Section MigrationExamples.

Import duckdb_pipeline.

Lemma migrate_idempotent_witness :
  convert_sqlite_to_duckdb Scenario.importer Scenario.attach Scenario.source Scenario.target
    false Scenario.disk = (Scenario.disk, None).
Proof.
  apply (proj1 (migrate_idempotent Scenario.importer Scenario.attach Scenario.source
                  Scenario.target Scenario.disk) (File (DuckDB [Scenario.people]))).
  - vm_compute. reflexivity.
  - intros q Hq. vm_compute in Hq.
    repeat (apply elem_of_cons in Hq as [->|Hq]; [vm_compute; reflexivity|]).
    by apply elem_of_nil in Hq.
Defined.

(** Without a target the importer runs; a second call then leaves what
    the first one wrote. *)
Example migrate_twice :
  convert_sqlite_to_duckdb Scenario.importer Scenario.attach Scenario.source
    Scenario.fresh false Scenario.disk = (Scenario.disk_after, None) ∧
  convert_sqlite_to_duckdb Scenario.importer Scenario.attach Scenario.source
    Scenario.fresh false Scenario.disk_after = (Scenario.disk_after, None) ∧
  table_set Scenario.disk_after Scenario.fresh = Some ["codes"].
Proof. repeat split; vm_compute; reflexivity. Qed.

End MigrationExamples.

(** * The column nullification mutator *)

Section EngineFacts.

Import Engine.

#[local] Open Scope Z_scope.

Lemma update_rows_result t c i e done pending rows :
  update_rows t c i e done pending = Some rows →
  rows = (done ++ (updated_row t c i e <$> pending))%list.
Proof.
  revert done. induction pending as [|[rid cells] rest IH]; intros done; simpl.
  - intros [= <-]. by rewrite app_nil_r.
  - destruct (col_notnull c && bool_decide (eval e rid = SNull)); [done|].
    unfold updated_row at 1. simpl.
    destruct (bool_decide (tbl_alias t = Some (col_name c))); simpl.
    + destruct (eval e rid) as [|z|s] eqn:Ev; simpl; try done.
      destruct (collides _ _ _ _); [done|].
      intros H. apply IH in H. by rewrite <- app_assoc in H.
    + destruct (collides _ _ _ _); [done|].
      intros H. apply IH in H. by rewrite <- app_assoc in H.
Qed.




Lemma find_table_name d name t : find_table d name = Some t → tbl_name t = name.
Proof.
  induction d as [|t0 d IH]; simpl; [done|].
  destruct (String.eqb_spec (tbl_name t0) name); [by intros [= <-]|done].
Qed.



End EngineFacts.

Section MutatorFacts.

Import Engine preprocess_dbs.

#[local] Open Scope Z_scope.

Lemma append_empty (s : string) : s +:+ "" = s.
Proof.
  induction s as [|c s IH]; [done|].
  change (String c (s +:+ "") = String c s). by f_equal.
Qed.














End MutatorFacts.

Section MutatorExamples.

Import Engine preprocess_dbs.


(** What the mutator writes in that table: the negative of the rowid in
    the integer primary key, a placeholder text in the UNIQUE text
    column. *)
Example per_row_values :
  process_db [Scenario.people] ["people.id"; "people.email"] =
  ([with_rows Scenario.people
      [((-1)%Z, [SInt (-1); SText "__DROPPED__-1"]);
       ((-2)%Z, [SInt (-2); SText "__DROPPED__-2"])]], 0%Z).
Proof. vm_compute. reflexivity. Qed.


(** With the engine checking each row as it is written, the per-row
    update is also rejected when a value to be written is still held by a
    row not yet updated. *)
Example per_row_update_rejected :
  process_db [Scenario.ranks] ["ranks.rank"] = ([Scenario.ranks], 2%Z).
Proof. vm_compute. reflexivity. Qed.

(** The mutator of [duckdb_pipeline.py] has no per-row path: for the
    NOT NULL and UNIQUE column it tries one shared empty value, which the
    engine rejects as soon as there are two rows. *)
Example duckdb_mutator_shared_value :
  duckdb_pipeline.nullify_columns_in_duckdb [Scenario.people] ["people.email"] =
  ([Scenario.people], 2%Z).
Proof. vm_compute. reflexivity. Qed.


(** A database that had to be skipped and one with a failed column both
    make the exit code 2; references that do not resolve do not. *)
Example exit_codes :
  (w ← main Scenario.pickle ["people"; "gone"]; Ok w.2) = Ok 2%Z ∧
  (w ← main Scenario.pickle ["people"; "codes"]; Ok w.2) = Ok 2%Z ∧
  process_db [Scenario.people] ["people.nothing"; "nowhere.id"; "garbled"] =
    ([Scenario.people], 0%Z) ∧
  main Scenario.pickle ["absent"] = Raise (SystemExit "DB id not in pickle: absent").
Proof. repeat split; vm_compute; reflexivity. Qed.

End MutatorExamples.

(** * Cells and result sets: what the comparisons accept *)

Section OrderedFacts.
Import Py duckdb_pipeline.

Lemma cells_equal_true (erow grow : list pyval) :
  length erow = length grow →
  cells_equal erow grow = Ok true ↔ Forall2 (λ a b, scalar_equal a b = Ok true) erow grow.
Proof.
  revert grow. induction erow as [|a erow IH]; intros [|b grow] Hlen; simpl in *; try done.
  injection Hlen as Hlen. specialize (IH grow Hlen).
  destruct (scalar_equal a b) as [[|]|e] eqn:E.
  - rewrite IH. split; [by constructor|]. by inversion 1.
  - split; [done|]. inversion 1; congruence.
  - split; [done|]. inversion 1; congruence.
Qed.

Lemma rows_equal_loop_true (rows : list pyval) (got : list (list pyval)) :
  length rows = length got →
  rows_equal_loop rows got = Ok true ↔
  ∃ erows, rows = PList <$> erows ∧
           Forall2 (Forall2 (λ a b, scalar_equal a b = Ok true)) erows got.
Proof.
  revert got. induction rows as [|r rows IH]; intros [|g got] Hlen; simpl in *; try done.
  - split; [intros _; exists []; split; [done|constructor]|done].
  - injection Hlen as Hlen. specialize (IH got Hlen). split.
    + destruct r as [ | | | | | | | |cells| | ]; try done.
      destruct (Nat.eqb_spec (length cells) (length g)) as [El|]; [|done]. simpl.
      destruct (cells_equal cells g) as [[|]|e] eqn:Ec; try done.
      intros H. apply IH in H as (erows & -> & HF).
      exists (cells :: erows). split; [done|]. constructor; [|done].
      by apply cells_equal_true.
    + intros (erows & E & HF). destruct erows as [|cells erows]; [done|].
      injection E as -> ->. inversion HF as [|? ? ? ? Hc HF']; subst.
      rewrite (Forall2_length _ _ _ Hc), Nat.eqb_refl. simpl.
      rewrite (proj2 (cells_equal_true cells g (Forall2_length _ _ _ Hc)) Hc).
      apply IH. by exists erows.
Qed.

(** X1: the ordered comparison with the expected answer is true exactly when the
    expected answer is a list of lists of the shape of the result and every
    cell is [scalar_equal] to the cell at its place. *)
Theorem rows_equal_true_iff (expected : pyval) (got : list (list pyval)) :
  rows_equal expected got = Ok true ↔
  ∃ erows, expected = PList (PList <$> erows) ∧
           Forall2 (Forall2 (λ a b, scalar_equal a b = Ok true)) erows got.
Proof.
  unfold rows_equal. split.
  - destruct expected as [ | | | | | | | |rows| | ]; try done.
    destruct (Nat.eqb_spec (length rows) (length got)) as [El|]; [|done]. simpl.
    intros H. apply rows_equal_loop_true in H as (erows & -> & HF); [|done].
    by exists erows.
  - intros (erows & -> & HF).
    assert (El : length (PList <$> erows) = length got).
    { rewrite length_fmap. by eapply Forall2_length. }
    rewrite El, Nat.eqb_refl. simpl. apply rows_equal_loop_true; [done|]. by exists erows.
Qed.

Variable repr : pyval → string.

Lemma tuples_equal_loop (s d : list (list pyval)) :
  rows_equal_loop (PList <$> s) d = tuples_equal s d.
Proof.
  revert d. induction s as [|sr s IH]; intros [|dr d]; try done.
  rewrite fmap_cons. simpl. destruct (negb _); [done|].
  destruct (cells_equal sr dr) as [[|]|]; try done.
Qed.

(** X2: the ordered comparison of the two live results is the ordered
    comparison with an expected answer that holds the rows of the first
    as lists: same verdict, same exception. *)
Theorem ordered_comparisons_agree (s d : list (list pyval)) :
  rows_equal_sqlite_duckdb repr s d false = rows_equal (PList (PList <$> s)) d.
Proof.
  unfold rows_equal_sqlite_duckdb, rows_equal. simpl negb at 1. cbv iota.
  rewrite length_fmap. destruct (negb _); [done|]. symmetry. apply tuples_equal_loop.
Qed.

End OrderedFacts.

Section NullFacts.
Import Py duckdb_pipeline.

Lemma _num_raises (a : pyval) (e : pyexn) : _num a = Raise e → e = OverflowError.
Proof.
  destruct a; simpl; try done.
  - destruct (PyFloat.of_int z); [done|]. by intros [= <-].
  - repeat case_match; done.
Qed.

Lemma untag_bytes_shape (a : pyval) :
  untag_bytes a = a ∨ ∃ v, untag_bytes a = PTuple [PStr "bytes"; v].
Proof.
  destruct a; simpl; auto. destruct (dict_get items "__type__") as [t|]; auto.
  destruct (py_eq t (PStr "bytes")); eauto.
Qed.

(** X3: a NULL is equal to a NULL and to nothing else, on either side. *)
Theorem null_equals_only_null (v : pyval) :
  (scalar_equal PNone v = Ok true ↔ v = PNone) ∧
  (scalar_equal v PNone = Ok true ↔ v = PNone).
Proof.
  assert (Hnum : ∀ a, a ≠ PNone → untag_bytes a = a → is_tuple a = false →
            scalar_equal PNone a ≠ Ok true ∧ scalar_equal a PNone ≠ Ok true).
  { intros a Hne Hu Ht. rewrite !scalar_equal_plain by done. simpl.
    destruct (_num a) as [[x|]|e]; simpl; split; try done; try by destruct a. }
  assert (H : v ≠ PNone → scalar_equal PNone v ≠ Ok true ∧ scalar_equal v PNone ≠ Ok true).
  { intros Hne. destruct (untag_bytes_shape v) as [Hu|[w Hu]].
    - destruct (is_tuple v) eqn:Ht; [|by apply Hnum].
      destruct v; try done; unfold scalar_equal; simpl; done.
    - destruct v; try done; unfold scalar_equal; rewrite Hu; simpl; done. }
  assert (D : v = PNone ∨ v ≠ PNone) by (destruct v; auto).
  split; (split; [|by intros ->]); intros E;
    destruct D as [|Hne]; try done; by destruct (H Hne).
Qed.

End NullFacts.

Section SymmetryFacts.
Import Py duckdb_pipeline.

Lemma SFcompare_swap (a b : PyFloat.float) :
  SFcompare b a = CompOpp <$> SFcompare a b.
Proof.
  destruct a as [sa|sa| |sa ma ea], b as [sb|sb| |sb mb eb]; simpl; try done;
    try (by destruct sa); try (by destruct sb); try (by destruct sa, sb).
  destruct sa, sb; simpl; try done; rewrite (Z.compare_antisym ea eb);
    destruct (ea ?= eb)%Z; simpl; try done.
  - by rewrite (Pos.compare_cont_antisym ma mb Eq).
  - by rewrite (Pos.compare_cont_antisym ma mb Eq).
Qed.

Lemma SFeqb_sym (a b : PyFloat.float) : SFeqb a b = SFeqb b a.
Proof.
  unfold SFeqb. rewrite (SFcompare_swap a b). by destruct (SFcompare a b) as [[ | | ]|].
Qed.

Lemma round_aux_abs (s s' : bool) mx ex lx :
  SFabs (binary_round_aux PyFloat.prec PyFloat.emax s mx ex lx) =
  SFabs (binary_round_aux PyFloat.prec PyFloat.emax s' mx ex lx).
Proof.
  unfold binary_round_aux.
  destruct (shr_fexp _ _ mx ex lx) as [mrs e1].
  destruct (shr_fexp _ _ _ e1 loc_Exact) as [mrs2 e2].
  destruct (shr_m mrs2); try done. by destruct (_ <=? _)%Z.
Qed.

Lemma round_abs (s s' : bool) m e :
  SFabs (binary_round PyFloat.prec PyFloat.emax s m e) =
  SFabs (binary_round PyFloat.prec PyFloat.emax s' m e).
Proof.
  unfold binary_round. destruct (shl_align _ _ _) as [mz ez]. apply round_aux_abs.
Qed.

Lemma normalize_abs_opp (m e : Z) :
  SFabs (binary_normalize PyFloat.prec PyFloat.emax (- m) e false) =
  SFabs (binary_normalize PyFloat.prec PyFloat.emax m e false).
Proof. destruct m; simpl; try done; apply round_abs. Qed.

Lemma fabs_sub_sym (a b : PyFloat.float) :
  PyFloat.fabs (PyFloat.sub a b) = PyFloat.fabs (PyFloat.sub b a).
Proof.
  unfold PyFloat.fabs, PyFloat.sub.
  destruct a as [sa|sa| |sa ma ea], b as [sb|sb| |sb mb eb]; simpl; try done;
    try (by destruct sa); try (by destruct sb); try (by destruct sa, sb).
  rewrite (Z.min_comm eb ea).
  rewrite <- normalize_abs_opp. f_equal. f_equal. lia.
Qed.

Lemma isclose_sym (a b r t : PyFloat.float) :
  PyFloat.isclose a b r t = PyFloat.isclose b a r t.
Proof.
  unfold PyFloat.isclose, PyFloat.eqb. rewrite (SFeqb_sym a b).
  destruct (SFeqb b a); [done|]. rewrite (orb_comm (PyFloat.is_inf a)).
  destruct (_ || _); [done|]. rewrite (fabs_sub_sym b a).
  by rewrite (orb_comm (PyFloat.leb _ (PyFloat.fabs (PyFloat.mul r b)))).
Qed.

Lemma exact_eqb_sym (x y : exact) : exact_eqb x y = exact_eqb y x.
Proof.
  destruct x as [n d|s| ], y as [n' d'|s'| ]; simpl; try done.
  - apply Z.eqb_sym.
  - by destruct s, s'.
Qed.

Lemma py_eq_plain_sym (a b : pyval) :
  is_container a = false → is_container b = false → py_eq a b = py_eq b a.
Proof.
  intros Ha Hb. destruct a, b; try done; simpl in *;
    try apply Z.eqb_sym; try apply exact_eqb_sym; try apply String.eqb_sym;
    try match goal with |- _ = exact_eqb ?x ?y => exact (exact_eqb_sym y x) end.
  - apply bool_decide_ext. split; by intros ->.
  - rewrite (String.eqb_sym ty), (String.eqb_sym rp). f_equal. f_equal.
    destruct iso, iso0; simpl; try done. apply String.eqb_sym.
Qed.

Lemma scalar_equal_plain_sym (a b : pyval) :
  untag_bytes a = a → untag_bytes b = b → is_tuple a = false → is_tuple b = false →
  py_eq a b = py_eq b a → scalar_equal a b = scalar_equal b a.
Proof.
  intros Ua Ub Ta Tb E. rewrite !scalar_equal_plain by done.
  destruct (_num a) as [[x|]|ea] eqn:Ea, (_num b) as [[y|]|eb] eqn:Eb; simpl; try done;
    try (by rewrite E); try (by rewrite isclose_sym).
  apply _num_raises in Ea, Eb. by subst.
Qed.

(** X4: on the values cells are made of, [scalar_equal] does not depend on
    the order of its operands: it returns the same verdict, or raises
    the same exception. *)
Theorem scalar_equal_symmetric (a b : pyval) :
  cell a → cell b → scalar_equal a b = scalar_equal b a.
Proof.
  assert (Hplain : ∀ v, is_container v = false → untag_bytes v = v ∧ is_tuple v = false).
  { intros v Hv. by destruct v. }
  assert (Hshape : ∀ v, cell v →
    is_container v = false ∨
    (∃ s, v = PDict [("__type__", PStr "bytes"); ("base64", PStr s)]) ∨
    (∃ ty rp, v = PDict [("__type__", PStr "py_repr"); ("py_type", PStr ty); ("repr", PStr rp)])).
  { intros v [Hv|(repr & w & ->)]; [by left|].
    destruct w as [ | | | | | | | | | |ty [ | |s] rp]; simpl; eauto. }
  intros Ha%Hshape Hb%Hshape.
  destruct Ha as [Ha|[[s ->]|(ty & rp & ->)]], Hb as [Hb|[[s' ->]|(ty' & rp' & ->)]].
  - destruct (Hplain a Ha), (Hplain b Hb).
    apply scalar_equal_plain_sym; try done. by apply py_eq_plain_sym.
  - destruct a; try done; unfold scalar_equal; simpl; done.
  - destruct (Hplain a Ha).
    apply scalar_equal_plain_sym; try done. by destruct a.
  - destruct b; try done; unfold scalar_equal; simpl; done.
  - unfold scalar_equal. simpl. by rewrite (String.eqb_sym s).
  - done.
  - destruct (Hplain b Hb).
    apply scalar_equal_plain_sym; try done. by destruct b.
  - done.
  - apply scalar_equal_plain_sym; try done. simpl.
    by rewrite (String.eqb_sym ty), (String.eqb_sym rp).
Qed.

End SymmetryFacts.

Lemma scalar_equal_symmetric_witness :
  duckdb_pipeline.scalar_equal (Py.PStr "1") (Py.PInt 1) =
  duckdb_pipeline.scalar_equal (Py.PInt 1) (Py.PStr "1").
Proof.
  apply (scalar_equal_symmetric (Py.PStr "1") (Py.PInt 1)); left; reflexivity.
Defined.

Section BytesFacts.
Import Py duckdb_pipeline.

Variable repr : pyval → string.

(** X5: a byte string that the engine returns is never found equal to the
    form in which the gold answers hold byte strings. *)
Theorem bytes_never_match_gold (raw raw' : list ascii) :
  let gold := _jsonable_scalar repr (PBytes raw) in
  scalar_equal gold (PBytes raw') = Ok false ∧
  rows_equal (PList [PList [gold]]) [[PBytes raw']] = Ok false ∧
  rows_equal_unordered repr (PList [PList [gold]]) [[PBytes raw']] = Some false.
Proof.
  cbv zeta. split; [done|]. split; [done|].
  change (PList [PList [_jsonable_scalar repr (PBytes raw)]])
    with (PList (PList <$> [[_jsonable_scalar repr (PBytes raw)]])).
  rewrite rows_equal_unordered_counters. reflexivity.
Qed.
End BytesFacts.

Section RaiseFacts.
Import Py duckdb_pipeline.

Lemma _num_raises_int (a : pyval) (e : pyexn) :
  _num a = Raise e → e = OverflowError ∧ ∃ z, a = PInt z ∧ PyFloat.of_int z = None.
Proof.
  destruct a; simpl; try done.
  - destruct (PyFloat.of_int z) eqn:E; [done|]. intros [= <-]. split; [done|]. by exists z.
  - repeat case_match; done.
Qed.

(** X6: [scalar_equal] raises in one case only: an operand is an integer
    too large to be converted to a float, and the exception is
    [OverflowError]. *)
Theorem scalar_equal_raises (a b : pyval) (e : pyexn) :
  scalar_equal a b = Raise e →
  e = OverflowError ∧ ∃ z, (a = PInt z ∨ b = PInt z) ∧ PyFloat.of_int z = None.
Proof.
  unfold scalar_equal.
  assert (Hu : ∀ v z, untag_bytes v = PInt z → v = PInt z).
  { intros v z. destruct v; simpl; try done.
    destruct (dict_get items "__type__") as [t|]; [|done]. by destruct (py_eq t (PStr "bytes")). }
  assert (H : (if is_tuple (untag_bytes a) || is_tuple (untag_bytes b)
               then Ok (py_eq (untag_bytes a) (untag_bytes b))
               else
                 na ← _num (untag_bytes a);
                 nb ← _num (untag_bytes b);
                 match na, nb with
                 | Some x, Some y => Ok (PyFloat.isclose x y PyFloat.tol PyFloat.tol)
                 | _, _ => Ok (py_eq (untag_bytes a) (untag_bytes b))
                 end) = Raise e →
              e = OverflowError ∧ ∃ z, (a = PInt z ∨ b = PInt z) ∧ PyFloat.of_int z = None).
  { destruct (_ || _); [done|].
    destruct (_num (untag_bytes a)) as [na|ea] eqn:Ea; simpl.
    - destruct (_num (untag_bytes b)) as [nb|eb] eqn:Eb; simpl.
      + by destruct na, nb.
      + intros [= <-]. apply _num_raises_int in Eb as (-> & z & Ez & Hz).
        split; [done|]. exists z. split; [right; by apply Hu|done].
    - intros [= <-]. apply _num_raises_int in Ea as (-> & z & Ez & Hz).
      split; [done|]. exists z. split; [left; by apply Hu|done]. }
  destruct a, b; exact H.
Qed.

End RaiseFacts.

Lemma scalar_equal_raises_witness :
  OverflowError = OverflowError ∧
  ∃ z, (Py.PInt (10 ^ 400) = Py.PInt z ∨ Py.PStr "1" = Py.PInt z) ∧ PyFloat.of_int z = None.
Proof.
  apply (scalar_equal_raises (Py.PInt (10 ^ 400)) (Py.PStr "1") OverflowError).
  vm_compute. reflexivity.
Defined.

Section LiveFacts.
Import Py duckdb_pipeline.

Variable repr : pyval → string.


End LiveFacts.

Section SortFacts.
Import Py.

Context {A : Type}.

#[local] Abbreviation key_le := (λ x y : string * A, String.le x.1 y.1).

Lemma insert_item_perm (x : string * A) (l : list (string * A)) : insert_item x l ≡ₚ x :: l.
Proof.
  induction l as [|y l IH]; simpl; [done|].
  destruct (String.leb x.1 y.1); [done|]. rewrite IH. apply perm_swap.
Qed.

Lemma sort_items_perm (l : list (string * A)) : sort_items l ≡ₚ l.
Proof.
  induction l as [|x l IH]; [done|]. simpl.
  change (insert_item x (sort_items l) ≡ₚ x :: l). by rewrite insert_item_perm, IH.
Qed.

Lemma insert_item_sorted (x : string * A) (l : list (string * A)) :
  Sorted key_le l → Sorted key_le (insert_item x l).
Proof.
  induction l as [|y l IH]; simpl; intros Hs.
  - by repeat constructor.
  - destruct (String.leb x.1 y.1) eqn:E.
    + constructor; [done|]. constructor. unfold String.le. by rewrite E.
    + apply Sorted_inv in Hs as [Hs Hh]. constructor; [by apply IH|].
      assert (Hyx : key_le y x).
      { destruct (String.leb_total x.1 y.1) as [H|H]; [congruence|].
        unfold String.le. by rewrite H. }
      destruct l as [|z l]; simpl; [by constructor|].
      destruct (String.leb x.1 z.1); constructor; [done|]. by apply HdRel_inv in Hh.
Qed.

Lemma sort_items_sorted (l : list (string * A)) : Sorted key_le (sort_items l).
Proof.
  induction l as [|x l IH]; [constructor|]. by apply insert_item_sorted.
Qed.

End SortFacts.

Section SortMapFacts.
Import Py.
Context {A B : Type} (f : A → B).

Lemma insert_item_payload (x : string * A) (l : list (string * A)) :
  insert_item (prod_map id f x) (prod_map id f <$> l) = prod_map id f <$> insert_item x l.
Proof.
  induction l as [|y l IH]; [done|]. rewrite fmap_cons. simpl.
  destruct (String.leb x.1 y.1); [done|]. rewrite fmap_cons. f_equal. apply IH.
Qed.

Lemma sort_items_payload (l : list (string * A)) :
  sort_items (prod_map id f <$> l) = prod_map id f <$> sort_items l.
Proof.
  induction l as [|x l IH]; [done|]. rewrite fmap_cons. 
  change (insert_item (prod_map id f x) (sort_items (prod_map id f <$> l)) =
          prod_map id f <$> insert_item x (sort_items l)).
  by rewrite IH, insert_item_payload.
Qed.
End SortMapFacts.

Section AnswerFacts.
Import Py duckdb_pipeline.

Variable repr : pyval → string.

#[local] Abbreviation row_le :=
  (λ r r' : list pyval, String.le (key_of_row repr r) (key_of_row repr r')).

Lemma stable_key_canonical (row : list pyval) :
  _stable_key repr (PList (map (_jsonable_scalar repr) row)) = Some (key_of_row repr row).
Proof. apply row_key_total. Qed.

Lemma keyed_rows (got : list (list pyval)) :
  mapM (λ r, k ← _stable_key repr (PList r); Some (k, r)) (_jsonable_rows repr got) =
  Some ((λ g, (key_of_row repr g, map (_jsonable_scalar repr) g)) <$> got).
Proof.
  apply mapM_Some. unfold _jsonable_rows.
  induction got as [|g got IH]; [constructor|]. constructor; [|done].
  cbv beta. by rewrite stable_key_canonical.
Qed.

(** The rows of a result in the order of their keys. *)
Lemma sorted_rows_exist (got : list (list pyval)) :
  let sorted := (sort_items ((λ g, (key_of_row repr g, g)) <$> got)).*2 in
  sorted ≡ₚ got ∧ Sorted row_le sorted ∧
  _canonicalize_jsonable_rows repr (_jsonable_rows repr got) = Some (_jsonable_rows repr sorted).
Proof.
  cbv zeta. set (keyed := (λ g, (key_of_row repr g, g)) <$> got).
  assert (Hk : Forall (λ kr : string * list pyval, kr.1 = key_of_row repr kr.2) (sort_items keyed)).
  { rewrite (sort_items_perm keyed). subst keyed. apply Forall_fmap, Forall_true. done. }
  split; [|split].
  - rewrite (sort_items_perm keyed). subst keyed.
    rewrite <- list_fmap_compose. simpl. by rewrite list_fmap_id.
  - pose proof (sort_items_sorted keyed) as Hs.
    induction Hs as [|kr l Hs IH Hh]; [constructor|].
    apply Forall_cons in Hk as [Hkr Hk]. rewrite fmap_cons. constructor; [by apply IH|].
    destruct Hh as [|kr' l Hle]; [constructor|]. rewrite fmap_cons. constructor.
    apply Forall_cons in Hk as [Hkr' _]. by rewrite <- Hkr, <- Hkr'.
  - unfold _canonicalize_jsonable_rows. rewrite keyed_rows. simpl. f_equal.
    assert ((λ g, (key_of_row repr g, map (_jsonable_scalar repr) g)) <$> got =
            prod_map id (map (_jsonable_scalar repr)) <$> keyed) as ->.
    { subst keyed. by rewrite <- list_fmap_compose. }
    rewrite sort_items_payload. unfold _jsonable_rows.
    rewrite <- !list_fmap_compose. done.
Qed.

(** X8: the answer written to the compatibility log holds the canonical
    rows of the result, none lost and none added, in the order of their
    stable keys; the keys of the answer do not depend on the order in
    which the engine returned the rows. *)
Theorem canonical_answer_sorted (got : list (list pyval)) :
  ∃ sorted,
    sorted ≡ₚ got ∧
    Sorted (λ r r', String.le (key_of_row repr r) (key_of_row repr r')) sorted ∧
    _canonicalize_jsonable_rows repr (_jsonable_rows repr got) =
      Some (_jsonable_rows repr sorted) ∧
    ∀ got', got' ≡ₚ got →
      ∃ sorted',
        _canonicalize_jsonable_rows repr (_jsonable_rows repr got') =
          Some (_jsonable_rows repr sorted') ∧
        key_of_row repr <$> sorted' = key_of_row repr <$> sorted.
Proof.
  destruct (sorted_rows_exist got) as (Hp & Hs & Hc).
  eexists. split; [exact Hp|]. split; [exact Hs|]. split; [exact Hc|].
  intros got' Hperm. destruct (sorted_rows_exist got') as (Hp' & Hs' & Hc').
  eexists. split; [exact Hc'|].
  apply (Sorted_unique String.le).
  - by apply (Sorted_fmap (key_of_row repr) _ String.le) in Hs'.
  - by apply (Sorted_fmap (key_of_row repr) _ String.le) in Hs.
  - apply fmap_Permutation. by rewrite Hp', Hp.
Qed.

End AnswerFacts.

(** * Queries the rewrite rules leave alone *)

Section RegexFacts.
Import Re.




End RegexFacts.

Section ConservativeFacts.
Import Re duckdb_pipeline.


End ConservativeFacts.


(** * References to columns *)

Section MatcherFacts.
Import Re.

Lemma append_assoc (a b c : string) : a +:+ (b +:+ c) = (a +:+ b) +:+ c.
Proof.
  induction a as [|x a IH]; [done|].
  change (String x (a +:+ (b +:+ c)) = String x ((a +:+ b) +:+ c)). by rewrite IH.
Qed.

(** A match continues at a tail of the text it started at. *)
Lemma run_tail {R} (r : regex) :
  ∀ prev s c (k : option ascii → string → caps → option R) x,
    run r prev s c k = Some x →
    ∃ prev' s' c' pre, k prev' s' c' = Some x ∧ s = pre +:+ s'.
Proof.
  induction r as [ |p|r1 IH1 r2 IH2|r1 IH1 r2 IH2|g r IH|n r IH| ];
    intros prev s c k x; cbn [run].
  - intros H. by exists prev, s, c, "".
  - destruct s as [|a s]; [done|]. destruct (p a); [|done].
    intros H. by exists (Some a), s, c, (String a "").
  - intros H. apply IH1 in H as (p1 & s1 & c1 & pre1 & H & ->).
    apply IH2 in H as (p2 & s2 & c2 & pre2 & H & ->).
    exists p2, s2, c2, (pre1 +:+ pre2). split; [done|]. apply append_assoc.
  - destruct (run r1 prev s c k) as [y|] eqn:E1.
    + intros [= ->]. by apply IH1 in E1.
    + apply IH2.
  - generalize (String.length s) at 1. intros fuel. revert prev s c x.
    induction fuel as [|fuel IHf]; intros prev s c x.
    + intros H. by exists prev, s, c, "".
    + intros H. cbv beta iota fix in H. 
      assert (Hmore : ∀ y,
                run r prev s c
                  (λ prev' s' c',
                     if (String.length s' <? String.length s)%nat
                     then (fix loop (fuel : nat) (prev : option ascii) (s : string) (c : caps)
                             {struct fuel} : option R :=
                             match fuel with
                             | O => k prev s c
                             | S fuel' =>
                                 let more :=
                                   run r prev s c
                                     (λ prev' s' c',
                                        if (String.length s' <? String.length s)%nat
                                        then loop fuel' prev' s' c' else None) in
                                 if g
                                 then match more with Some x => Some x | None => k prev s c end
                                 else match k prev s c with Some x => Some x | None => more end
                             end) fuel prev' s' c'
                     else None) = Some y →
                ∃ prev' s' c' pre, k prev' s' c' = Some y ∧ s = pre +:+ s').
      { intros y Hy. apply IH in Hy as (p1 & s1 & c1 & pre1 & Hy & ->).
        destruct (_ <? _)%nat; [|done].
        apply IHf in Hy as (p2 & s2 & c2 & pre2 & Hy & ->).
        exists p2, s2, c2, (pre1 +:+ pre2). split; [done|]. apply append_assoc. }
      destruct g.
      * destruct (run r prev s c _) as [y|] eqn:E; [injection H as ->; by apply Hmore|].
        by exists prev, s, c, "".
      * destruct (k prev s c) as [y|] eqn:Ek.
        -- injection H as ->. by exists prev, s, c, "".
        -- by apply Hmore.
  - intros H. apply IH in H as (p1 & s1 & c1 & pre1 & H & ->). eauto 10.
  - destruct (xorb _ _); [|done]. intros H. by exists prev, s, c, "".
Qed.

End MatcherFacts.

Section PairFacts.
Import Re.

Lemma contains_at (c : ascii) (pre rest : string) :
  PyStr.contains (String c "") (pre +:+ String c rest) = true.
Proof.
  induction pre as [|a pre IH].
  - change (PyStr.contains (String c "") (String c rest) = true). simpl.
    destruct (ascii_dec c c); [|done]. by destruct rest.
  - change (PyStr.contains (String c "") (String a (pre +:+ String c rest)) = true).
    simpl. rewrite IH. apply orb_true_r.
Qed.

Lemma split_once_absent (c : ascii) (s : string) :
  PyStr.contains (String c "") s = false → PyStr.split_once c s = None.
Proof.
  induction s as [|a s IH]; [done|]. simpl.
  destruct (Ascii.eqb_spec a c) as [->|Hne].
  - destruct (ascii_dec c c); [|done]. by destruct s.
  - intros [_ H]%orb_false_elim. by rewrite IH.
Qed.

(** A match of the pair pattern passes a dot. *)
Lemma pair_needs_dot (pattern : regex) (prev : option ascii) (s : string) :
  pattern = duckdb_pipeline.PAIR_RE →
  PyStr.contains "." s = false → match_here pattern prev s = None.
Proof.
  intros -> Hs. destruct (match_here _ prev s) as [x|] eqn:E; [|done]. exfalso.
  unfold match_here, duckdb_pipeline.PAIR_RE in E. cbn [run] in E.
  assert (Hdot : ∀ p1 s1 c1 (k : option ascii → string → caps → option (caps * string)) pre,
            s = pre +:+ s1 →
            run (lit false ".") p1 s1 c1 k = Some x → False).
  { intros p1 s1 c1 k pre -> H. cbn [run lit chr] in H. destruct s1 as [|a s1]; [done|].
    destruct (Ascii.eqb_spec "."%char a) as [<-|]; [|done].
    by rewrite contains_at in Hs. }
  destruct (run (plus word_char) prev s [] _) as [y|] eqn:E1.
  - injection E as ->.
    apply run_tail in E1 as (p1 & s1 & c1 & pre & H & ->). cbn [run] in H. by eapply Hdot.
  - apply run_tail in E as (p1 & s1 & c1 & pre & H & ->). cbn [run] in H. by eapply Hdot.
Qed.

Lemma finditer_needs_dot (skip : nat) (prev : option ascii) (s : string) :
  PyStr.contains "." s = false → finditer_from duckdb_pipeline.PAIR_RE skip prev s = [].
Proof.
  revert skip prev. induction s as [|a s IH]; intros skip prev Hs.
  - cbn [finditer_from]. destruct skip; [|done]. by rewrite (pair_needs_dot _ _ _ eq_refl Hs).
  - assert (Hs' : PyStr.contains "." s = false).
    { simpl in Hs. by apply orb_false_elim in Hs as [_ ?]. }
    cbn [finditer_from]. destruct skip; [|by apply IH].
    rewrite (pair_needs_dot _ _ _ eq_refl Hs). by apply IH.
Qed.

(** X10: a reference without a dot names no column: nothing is yielded. *)
Theorem reference_without_dot (expr : string) :
  PyStr.contains "." expr = false →
  duckdb_pipeline._iter_pairs expr = [] ∧ preprocess_dbs._iter_pairs expr = [].
Proof.
  intros H.
  assert (E : duckdb_pipeline._iter_pairs expr = []).
  { unfold duckdb_pipeline._iter_pairs, finditer.
    by rewrite finditer_needs_dot, split_once_absent. }
  split; [exact E|exact E].
Qed.

End PairFacts.

Lemma reference_without_dot_witness :
  duckdb_pipeline._iter_pairs "garbled" = [] ∧ preprocess_dbs._iter_pairs "garbled" = [].
Proof. apply (reference_without_dot "garbled"). reflexivity. Defined.

Section StarFacts.
Import Re.

Lemma star_step {R} (p : ascii → bool) (a : ascii) (s : string) (prev : option ascii) (c : caps)
    (k : option ascii → string → caps → option R) :
  run (Star true (Chr p)) prev (String a s) c k =
  if p a
  then match run (Star true (Chr p)) (Some a) s c k with
       | Some x => Some x
       | None => k prev (String a s) c
       end
  else k prev (String a s) c.
Proof.
  cbn [run String.length]. destruct (p a); [|done].
  assert ((String.length s <? S (String.length s))%nat = true) as -> by (apply Nat.ltb_lt; lia).
  done.
Qed.

(** A greedy repetition of one character class takes every character of
    the class that stands at the head of the text, when the rest of the
    pattern matches after them. *)
Lemma star_takes_all {R} (p : ascii → bool) (w rest : string) (prev : option ascii) (c : caps)
    (k : option ascii → string → caps → option R) (x : R) :
  PyStr.all_chars p w = true →
  (∀ b r, rest = String b r → p b = false) →
  (∀ prev', k prev' rest c = Some x) →
  run (Star true (Chr p)) prev (w +:+ rest) c k = Some x.
Proof.
  intros Hw Hr Hk. revert prev. induction w as [|a w IH]; intros prev.
  - change ("" +:+ rest) with rest. destruct rest as [|b rest]; [apply Hk|].
    rewrite star_step, (Hr b rest eq_refl). apply Hk.
  - change (String a w +:+ rest) with (String a (w +:+ rest)).
    simpl in Hw. apply andb_true_iff in Hw as [Ha Hw].
    by rewrite star_step, Ha, IH.
Qed.

Lemma plus_takes_all {R} (p : ascii → bool) (a : ascii) (w rest : string)
    (prev : option ascii) (c : caps) (k : option ascii → string → caps → option R) (x : R) :
  PyStr.all_chars p (String a w) = true →
  (∀ b r, rest = String b r → p b = false) →
  (∀ prev', k prev' rest c = Some x) →
  run (plus (Chr p)) prev (String a w +:+ rest) c k = Some x.
Proof.
  intros Hw Hr Hk. simpl in Hw. apply andb_true_iff in Hw as [Ha Hw].
  change (String a w +:+ rest) with (String a (w +:+ rest)).
  unfold plus. cbn [run]. rewrite Ha. by apply star_takes_all.
Qed.

Lemma length_append (a b : string) :
  String.length (a +:+ b) = (String.length a + String.length b)%nat.
Proof.
  induction a as [|x a IH]; [done|].
  change (S (String.length (a +:+ b)) = S (String.length a + String.length b)). by rewrite IH.
Qed.

Lemma take_append (w rest : string) : take (String.length w) (w +:+ rest) = w.
Proof.
  induction w as [|x w IH]; [by destruct rest|].
  change (String x (take (String.length w) (w +:+ rest)) = String x w). by rewrite IH.
Qed.

Lemma consumed_append (w rest : string) : consumed (w +:+ rest) rest = w.
Proof.
  unfold consumed. rewrite length_append.
  replace (String.length w + String.length rest - String.length rest)%nat
    with (String.length w) by lia.
  apply take_append.
Qed.

Lemma all_chars_at (q : ascii → bool) (pre : string) (d : ascii) (r : string) :
  PyStr.all_chars q (pre +:+ String d r) = true → q d = true.
Proof.
  induction pre as [|x pre IH].
  - change (PyStr.all_chars q (String d r) = true → q d = true). simpl.
    by intros [? _]%andb_true_iff.
  - change (PyStr.all_chars q (String x (pre +:+ String d r)) = true → q d = true). simpl.
    intros [_ ?]%andb_true_iff. by apply IH.
Qed.

(** Where a separator stands between two runs of a class it is not in. *)
Lemma separator_place (q : ascii → bool) (d : ascii) (t c pre r : string) :
  PyStr.all_chars q t = true → PyStr.all_chars q c = true → q d = false →
  t +:+ String d c = pre +:+ String d r → pre = t ∧ r = c.
Proof.
  intros Ht Hc Hd. revert pre. induction t as [|a t IH]; intros [|x pre].
  - change (String d c = String d r → "" = "" ∧ r = c). by intros [= ->].
  - change (String d c = String x (pre +:+ String d r) → String x pre = "" ∧ r = c).
    intros [= <- ->]. apply all_chars_at in Hc. congruence.
  - change (String a (t +:+ String d c) = String d r → "" = String a t ∧ r = c).
    intros [= -> _]. simpl in Ht. apply andb_true_iff in Ht as [? _]. congruence.
  - change (String a (t +:+ String d c) = String x (pre +:+ String d r) →
            String x pre = String a t ∧ r = c).
    intros [= <- E]. simpl in Ht. apply andb_true_iff in Ht as [_ Ht].
    destruct (IH Ht pre E) as [-> ->]. done.
Qed.

Lemma rev_app_rev_app (s a b : string) :
  String.rev_app (String.rev_app s a) b = String.rev_app a (s +:+ b).
Proof.
  revert a. induction s as [|x s IH]; intros a; [done|].
  change (String.rev_app (String.rev_app s (String x a)) b =
          String.rev_app a (String x (s +:+ b))).
  by rewrite IH.
Qed.

Lemma rev_rev (s : string) : String.rev (String.rev s) = s.
Proof.
  unfold String.rev. rewrite rev_app_rev_app.
  change (s +:+ "" = s). induction s as [|x s IH]; [done|].
  change (String x (s +:+ "") = String x s). by rewrite IH.
Qed.

Lemma all_chars_rev_app (q : ascii → bool) (s a : string) :
  PyStr.all_chars q s = true → PyStr.all_chars q a = true →
  PyStr.all_chars q (String.rev_app s a) = true.
Proof.
  revert a. induction s as [|x s IH]; intros a Hs Ha; [done|].
  simpl in *. apply andb_true_iff in Hs as [Hx Hs]. apply IH; [done|].
  simpl. by rewrite Hx.
Qed.

Lemma lstrip_outside (p q : ascii → bool) (s : string) :
  (∀ a, q a = true → p a = false) → PyStr.all_chars q s = true → PyStr.lstrip_by p s = s.
Proof.
  intros Hpq. destruct s as [|a s]; [done|]. simpl.
  intros [Ha _]%andb_true_iff. by rewrite (Hpq a Ha).
Qed.

Lemma rstrip_outside (p q : ascii → bool) (s : string) :
  (∀ a, q a = true → p a = false) → PyStr.all_chars q s = true → PyStr.rstrip_by p s = s.
Proof.
  intros Hpq Hs. unfold PyStr.rstrip_by.
  rewrite (lstrip_outside p q); [apply rev_rev|done|].
  by apply all_chars_rev_app.
Qed.

Lemma word_not_space (a : ascii) : PyStr.is_word a = true → PyStr.is_space a = false.
Proof. destruct a as [[] [] [] [] [] [] [] []]; vm_compute; congruence. Qed.

Lemma strip_word (s : string) : PyStr.all_chars PyStr.is_word s = true → PyStr.strip s = s.
Proof.
  intros Hs. unfold PyStr.strip.
  rewrite (lstrip_outside _ PyStr.is_word) by (done || apply word_not_space).
  by apply (rstrip_outside _ PyStr.is_word); [apply word_not_space|].
Qed.

Lemma finditer_skip_all (r : regex) (s : string) (prev : option ascii) :
  (∀ prev', match_here r prev' "" = None) → finditer_from r (String.length s) prev s = [].
Proof.
  intros H. revert prev. induction s as [|a s IH]; intros prev.
  - cbn [finditer_from String.length]. by rewrite H.
  - cbn [finditer_from String.length]. apply IH.
Qed.

End StarFacts.

Section DottedFacts.
Import Re.

Lemma word_not_dot : PyStr.is_word "." = false.
Proof. reflexivity. Qed.

(** The first alternative of the pair pattern, a backquoted column, finds
    no match in a table name, a dot and a column name. *)
Lemma no_backquoted_pair (t c : string) (prev : option ascii) :
  PyStr.all_chars PyStr.is_word t = true → PyStr.all_chars PyStr.is_word c = true →
  run (Seq (Group 1 (plus word_char))
        (Seq (lit false ".") (Seq (lit false "`")
          (Seq (Group 2 (plus (not_char "`"))) (lit false "`")))))
      prev (t +:+ String "." c) [] (λ _ s' caps, Some (caps, s')) = None.
Proof.
  intros Ht Hc.
  destruct (run _ prev _ [] _) as [y|] eqn:E; [|done]. exfalso.
  cbn [run] in E. apply run_tail in E as (p1 & s1 & c1 & pre & H & E).
  cbn [run lit chr] in H. destruct s1 as [|a s1]; [done|].
  destruct (Ascii.eqb_spec "."%char a) as [<-|]; [|done].
  destruct s1 as [|b s1]; [done|].
  destruct (Ascii.eqb_spec "`"%char b) as [<-|]; [|done].
  apply (separator_place PyStr.is_word) in E as [_ <-]; try done.
Qed.

Lemma plain_pair (t c : string) (prev : option ascii) :
  t ≠ "" → c ≠ "" →
  PyStr.all_chars PyStr.is_word t = true → PyStr.all_chars PyStr.is_word c = true →
  match_here duckdb_pipeline.PAIR_RE prev (t +:+ String "." c) = Some ([(4, c); (3, t)], "").
Proof.
  intros Hnt Hnc Ht Hc. unfold match_here, duckdb_pipeline.PAIR_RE.
  cbn [run]. 
  pose proof (no_backquoted_pair t c prev Ht Hc) as Hno. cbn [run] in Hno. rewrite Hno.
  destruct t as [|a t]; [done|]. destruct c as [|b c]; [done|].
  apply plus_takes_all; [done|intros ? ? [= <- _]; done|].
  intros p1. cbn [run lit chr]. rewrite Ascii.eqb_refl.
  rewrite (consumed_append (String a t) (String "." (String b c))).
  rewrite <- (append_empty (String b c)) at 1.
  apply plus_takes_all; [done|done|].
  intros p2. rewrite <- (append_empty (String b c)) at 1. by rewrite consumed_append.
Qed.

Lemma pair_not_empty (prev : option ascii) :
  match_here duckdb_pipeline.PAIR_RE prev "" = None.
Proof. reflexivity. Qed.

Lemma finditer_plain_pair (t c : string) :
  t ≠ "" → c ≠ "" →
  PyStr.all_chars PyStr.is_word t = true → PyStr.all_chars PyStr.is_word c = true →
  finditer duckdb_pipeline.PAIR_RE (t +:+ String "." c) = [[(4, c); (3, t)]].
Proof.
  intros Hnt Hnc Ht Hc. unfold finditer.
  destruct (t +:+ String "." c) as [|a s] eqn:Es.
  { destruct t; [done|discriminate Es]. }
  cbn [finditer_from]. rewrite <- Es, (plain_pair t c None) by done. rewrite Es.
  f_equal. cbn [String.length]. rewrite Nat.sub_0_r.
  replace (S (String.length s) - 1)%nat with (String.length s) by lia.
  apply finditer_skip_all, pair_not_empty.
Qed.

(** X11: a table name, a dot and a column name, each made of letters,
    digits and underscores, are read as that one pair. *)
Theorem dotted_reference_pair (t c : string) :
  t ≠ "" → c ≠ "" →
  PyStr.all_chars PyStr.is_word t = true → PyStr.all_chars PyStr.is_word c = true →
  duckdb_pipeline._iter_pairs (t +:+ "." +:+ c) = [(t, c)] ∧
  preprocess_dbs._iter_pairs (t +:+ "." +:+ c) = [(t, c)].
Proof.
  intros Hnt Hnc Ht Hc.
  assert (E : duckdb_pipeline._iter_pairs (t +:+ "." +:+ c) = [(t, c)]).
  { unfold duckdb_pipeline._iter_pairs.
    change (t +:+ "." +:+ c) with (t +:+ String "." c).
    rewrite finditer_plain_pair by done.
    cbn [omap list_omap group Nat.eqb duckdb_pipeline.por default].
    destruct t as [|a t]; [done|]. destruct c as [|b c]; [done|].
    cbn [duckdb_pipeline.por default]. rewrite !strip_word by done. done. }
  split; exact E.
Qed.

End DottedFacts.

Lemma dotted_reference_pair_witness :
  duckdb_pipeline._iter_pairs "frpm.County_Name" = [("frpm", "County_Name")] ∧
  preprocess_dbs._iter_pairs "frpm.County_Name" = [("frpm", "County_Name")].
Proof.
  apply (dotted_reference_pair "frpm" "County_Name"); (discriminate || reflexivity).
Defined.

Section BackquotedFacts.
Import Re.

#[local] Abbreviation not_bq := (λ x : ascii, negb (Ascii.eqb x "`")).



End BackquotedFacts.


(** * The mutators: what is written and what is left *)

Section EngineMore.
Import Engine.
#[local] Open Scope Z_scope.







Lemma update_table_shape t name e t' : update_table t name e = Some t' → same_shape t t'.
Proof.
  unfold update_table. destruct (uses_rowid e && negb (tbl_has_rowid t)); [done|].
  destruct (col_index (tbl_cols t) name) as [i|]; simpl; [|done].
  destruct (tbl_cols t !! i) as [c|]; simpl; [|done].
  destruct (update_rows t c i e [] (tbl_rows t)) as [rows|] eqn:Er; simpl; [|done].
  intros [= <-]. exists rows. split; [done|].
  apply update_rows_result in Er. subst rows. simpl. by rewrite length_fmap.
Qed.

Lemma same_shape_refl t : same_shape t t.
Proof. exists (tbl_rows t). by destruct t. Qed.

Lemma same_shape_trans t1 t2 t3 : same_shape t1 t2 → same_shape t2 t3 → same_shape t1 t3.
Proof.
  intros (r2 & -> & H2) (r3 & -> & H3). exists r3. split; [done|]. simpl in H3. congruence.
Qed.

Lemma same_shape_name t t' : same_shape t t' → tbl_name t' = tbl_name t.
Proof. by intros (rows & -> & _). Qed.

Lemma replace_table_shape d name t t' :
  find_table d name = Some t → same_shape t t' →
  Forall2 same_shape d (replace_table d t').
Proof.
  intros Hf Hs. pose proof (same_shape_name _ _ Hs) as En.
  pose proof (find_table_name _ _ _ Hf) as Hn. rewrite Hn in En. clear Hn.
  induction d as [|t0 d IH]; simpl in *; [done|]. rewrite En.
  destruct (String.eqb (tbl_name t0) name).
  - injection Hf as ->. constructor; [done|].
    apply Forall_Forall2_diag, Forall_true, same_shape_refl.
  - constructor; [apply same_shape_refl|]. by apply IH.
Qed.

Lemma execute_update_shape d tname cname e d' :
  execute_update d tname cname e = Some d' → Forall2 same_shape d d'.
Proof.
  unfold execute_update. destruct (find_table d tname) as [t|] eqn:Hf; simpl; [|done].
  destruct (update_table t cname e) as [t'|] eqn:Hu; simpl; [|done].
  intros [= <-]. eapply replace_table_shape; [done|]. by eapply update_table_shape.
Qed.

Lemma shapes_refl (d : db) : Forall2 same_shape d d.
Proof. apply Forall_Forall2_diag, Forall_true, same_shape_refl. Qed.

Lemma shapes_trans (d1 d2 d3 : db) :
  Forall2 same_shape d1 d2 → Forall2 same_shape d2 d3 → Forall2 same_shape d1 d3.
Proof.
  intros H. revert d3. induction H as [|t1 t2 d1 d2 Ht _ IH]; intros d3; [done|].
  inversion 1; subst. constructor; [by eapply same_shape_trans|]. by apply IH.
Qed.





End EngineMore.

Section MutatorMore.
Import Engine preprocess_dbs.
#[local] Open Scope Z_scope.











End MutatorMore.

Section CountFacts.
Import Engine.
#[local] Open Scope nat_scope.

Lemma pairs_fold {St} (step : St → string * string → St) (measure : St → nat)
    (inv : St → Prop) (iter : string → list (string * string)) :
  (∀ st pair, inv st → inv (step st pair) ∧ measure (step st pair) = S (measure st)) →
  ∀ columns st, inv st →
    let st' := foldl (λ st ref, foldl step st (iter ref)) st columns in
    inv st' ∧ measure st' = measure st + length (columns ≫= iter).
Proof.
  intros Hstep.
  assert (Hin : ∀ pairs st, inv st →
            inv (foldl step st pairs) ∧ measure (foldl step st pairs) = measure st + length pairs).
  { induction pairs as [|pair pairs IH]; intros st Hst; simpl; [split; [done|lia]|].
    destruct (Hstep st pair Hst) as [Hi Hm]. destruct (IH _ Hi) as [Hi' Hm'].
    split; [done|]. rewrite Hm', Hm. lia. }
  induction columns as [|ref columns IH]; intros st Hst.
  - split; [done|]. change (measure st = measure st + 0). lia.
  - destruct (Hin (iter ref) st Hst) as [Hi Hm]. destruct (IH _ Hi) as [Hi' Hm'].
    split; [done|]. rewrite bind_cons, length_app. cbn [foldl].
    cbv zeta in Hm'. rewrite Hm', Hm. lia.
Qed.


End CountFacts.

Section DuckMutatorFacts.
Import Engine duckdb_pipeline.
#[local] Open Scope nat_scope.

Lemma nullify_pair_step table_map conn n pair conn' n' :
  nullify_pair table_map (conn, n) pair = (conn', n') →
  applied n' + failed n' + missing n' = S (applied n + failed n + missing n) ∧
  Forall2 same_shape conn conn' ∧
  (failed n' = failed n ∨ failed n' = S (failed n) ∧ conn' = conn).
Proof.
  destruct pair as [table_raw col_raw]. unfold nullify_pair.
  destruct (table_map !! _) as [[|c table]|];
    try (intros [= <- <-]; split; [simpl; lia|split; [apply shapes_refl|by left]]).
  destruct (_duck_table_info conn (String c table) !! _) as [[[[cn ct] nn] pk]|];
    [|intros [= <- <-]; split; [simpl; lia|split; [apply shapes_refl|by left]]].
  destruct (execute_update conn (String c table) cn ENull) as [c1|] eqn:E1.
  { intros [= <- <-]. split; [simpl; lia|]. split; [by eapply execute_update_shape|by left]. }
  destruct (execute_update conn (String c table) cn (EParam _)) as [c2|] eqn:E2.
  { intros [= <- <-]. split; [simpl; lia|]. split; [by eapply execute_update_shape|by left]. }
  intros [= <- <-]. split; [simpl; lia|]. split; [apply shapes_refl|by right].
Qed.

Lemma nullify_code (src : Engine.db) (columns : list string) :
  nullify_columns_in_duckdb src columns =
  ((nullify_refs src columns).1,
   if (failed (nullify_refs src columns).2 =? 0) then 0%Z else 2%Z).
Proof.
  unfold nullify_columns_in_duckdb, nullify_refs. by destruct (foldl _ _ columns).
Qed.

(** X17: in the mutator of the converted databases every pair read from
    the references is counted once, as applied, failed or missing; the
    code returned is 0 when nothing failed and 2 otherwise; and the copy
    has the tables, the columns and the numbers of rows of the source. *)
Theorem duckdb_mutator_counts (src : Engine.db) (columns : list string) :
  let n := (nullify_refs src columns).2 in
  applied n + failed n + missing n = length (columns ≫= _iter_pairs) ∧
  (nullify_columns_in_duckdb src columns).2 = (if failed n =? 0 then 0%Z else 2%Z) ∧
  Forall2 same_shape src (nullify_columns_in_duckdb src columns).1.
Proof.
  cbv zeta. rewrite nullify_code. cbn [fst snd]. unfold nullify_refs.
  destruct (pairs_fold (nullify_pair (_duck_list_tables src))
              (λ st, applied st.2 + failed st.2 + missing st.2)
              (λ st, Forall2 same_shape src st.1) _iter_pairs) with
    (columns := columns)
    (st := (src, {| applied := 0; failed := 0; missing := 0 |})) as [Hi Hm].
  - intros [conn n] pair Hinv.
    destruct (nullify_pair _ (conn, n) pair) as [conn' n'] eqn:E.
    apply nullify_pair_step in E as (Hc & Hs & _). split; [|done].
    simpl in *. by eapply shapes_trans.
  - apply shapes_refl.
  - simpl in Hm. done.
Qed.

End DuckMutatorFacts.

Section CatalogueFacts.
Import Engine preprocess_dbs.

Lemma fold_insert_lookup {A V} (key : A → string) (val : A → V) (l : list A)
    (m : gmap string V) (k : string) (v : V) :
  foldl (λ m x, <[key x := val x]> m) m l !! k = Some v →
  m !! k = Some v ∨ ∃ x, x ∈ l ∧ key x = k ∧ val x = v.
Proof.
  revert m. induction l as [|x l IH]; intros m; simpl; [by left|].
  intros [H|(y & Hy & Hk & Hv)]%IH.
  - destruct (decide (key x = k)) as [E|E].
    + rewrite E, lookup_insert_eq in H. injection H as <-. right. exists x.
      split; [by left|done].
    + rewrite lookup_insert_ne in H by done. by left.
  - right. exists y. split; [by right|done].
Qed.







End CatalogueFacts.

Section MainFacts.
Import Engine preprocess_dbs.
#[local] Open Scope Z_scope.




End MainFacts.

(** * The passes and the compatibility log *)

Section HarnessMore.
Import Py duckdb_pipeline.

Variable repr : pyval → string.
Variable sqlglot_transpile : string → option (list string).
Variable sqlite_is_file : string → bool.
Variable sqlite_execute : string → string → option (list (list pyval)).
Variable duck_is_file : string → string → bool.
Variable duck_execute : string → string → string → duck_outcome.
Variable args : Args.
Variable expected : gmap string pyval.

#[local] Abbreviation eval_row := (eval_row repr sqlglot_transpile sqlite_is_file sqlite_execute
                        duck_is_file duck_execute args expected).
#[local] Abbreviation eval_rows := (eval_rows repr sqlglot_transpile sqlite_is_file sqlite_execute
                         duck_is_file duck_execute args expected).
#[local] Abbreviation _evaluate := (_evaluate repr sqlglot_transpile sqlite_is_file sqlite_execute
                         duck_is_file duck_execute args expected).
#[local] Abbreviation run_query := (run_query repr sqlglot_transpile duck_is_file duck_execute args).

Lemma counted_lookup db m m' db' s :
  counted db m m' → m' !! db' = Some s →
  (db' = db ∧ (1 ≤ total s)%nat) ∨ (db' ≠ db ∧ m !! db' = Some s).
Proof.
  intros Hc. destruct (decide (db' = db)) as [->|Hne].
  - destruct Hc; rewrite !bump_lookup, ?decide_True by done;
      intros [= <-]; left; (split; [done|simpl; lia]).
  - destruct Hc; rewrite !bump_lookup, ?decide_False by done; intros H; by right.
Qed.

(** A row that changes the statistics was selected. *)
Lemma eval_row_counts root rt rc cap st item st' :
  eval_row root rt rc cap st item = Ok st' →
  by_db st' = by_db st ∨
  (selected args rt item.1.1 item.1.2 item.2 = true ∧
   counted (item_key item).1 (by_db st) (by_db st')).
Proof.
  intros H. destruct item as [[base idx] row]. cbn [fst snd].
  destruct (selected args rt base idx row) eqn:Es.
  - apply eval_row_cases in H as [[-> _]|[Hc _]]; [by left|by right].
  - rewrite eval_row_unselected in H by done. injection H as <-. by left.
Qed.

Lemma selected_only_db rt base idx row :
  selected args rt base idx row = true → only_db args ≠ "" →
  (row_key_of base idx row).1 = only_db args.
Proof.
  unfold selected, row_key_of. cbn [fst]. intros H Hne.
  apply andb_true_iff in H as [H _]. apply andb_true_iff in H as [_ H].
  apply negb_true_iff, andb_false_iff in H as [H|H].
  - apply negb_false_iff, String.eqb_eq in H. done.
  - by apply negb_false_iff, String.eqb_eq in H.
Qed.

Lemma eval_rows_databases root rt rc cap items st p :
  eval_rows root rt rc cap items st = Ok p →
  ∀ db s, by_db p !! db = Some s →
    by_db st !! db = Some s ∨
    ((1 ≤ total s)%nat ∧ (only_db args ≠ "" → db = only_db args) ∧
     ∃ item, item ∈ items ∧ (item_key item).1 = db).
Proof.
  revert p. induction items as [|x items IH] using rev_ind; intros p.
  - intros [= <-] db s Hs. by left.
  - rewrite eval_rows_app.
    destruct (eval_rows root rt rc cap items st) as [st1|] eqn:E; simpl; [|done].
    destruct (eval_row root rt rc cap st1 x) as [st2|] eqn:Ex; simpl; [|done].
    intros [= <-] db s Hs.
    assert (Hold : by_db st1 !! db = Some s →
              by_db st !! db = Some s ∨
              ((1 ≤ total s)%nat ∧ (only_db args ≠ "" → db = only_db args) ∧
               ∃ item, item ∈ (items ++ [x])%list ∧ (item_key item).1 = db)).
    { intros H1. destruct (IH st1 eq_refl db s H1) as [?|(Ht & Ho & item & Hi & Hk)]; [by left|].
      right. split; [done|]. split; [done|]. exists item. split; [|done].
      apply elem_of_app. by left. }
    apply eval_row_counts in Ex as [Eb|[Hsel Hc]]; [rewrite Eb in Hs; by apply Hold|].
    destruct (counted_lookup _ _ _ _ _ Hc Hs) as [[-> Ht]|[_ H1]]; [|by apply Hold].
    right. split; [done|]. split.
    + intros Hne. destruct x as [[base idx] row]. by apply (selected_only_db rt).
    + exists x. split; [|done]. apply elem_of_app. right. by apply list_elem_of_singleton.
Qed.

(** X21: a database has statistics after a pass only if a row of a query
    file names it and was counted: its total is at least 1, and with
    [--db] it is the database asked for. *)
Theorem evaluated_databases csvs out root rt rc cap p :
  _evaluate csvs out root rt rc cap = Ok p →
  ∀ db s, by_db p !! db = Some s →
    (1 ≤ total s)%nat ∧
    (only_db args ≠ "" → db = only_db args) ∧
    ∃ item, item ∈ numbered csvs ∧ (item_key item).1 = db.
Proof.
  intros H db s Hs.
  destruct (eval_rows_databases _ _ _ _ _ _ _ H db s Hs) as [H0|?]; [|done].
  simpl in H0. by rewrite lookup_empty in H0.
Qed.













End HarnessMore.

(** * The migration engine: frame and result *)

Section MigrationMore.
Import duckdb_pipeline.

Variable sqlite2duckdb : gmap path node → path → path → option content * bool.
Variable attach_all_varchar : gmap path node → path → option (list Engine.table).

#[local] Abbreviation convert := (convert_sqlite_to_duckdb sqlite2duckdb attach_all_varchar).

Lemma mkdir_steps_files (qs : list path) (f f' : gmap path node) :
  foldl mkdir_step (Ok f) qs = Ok f' →
  ∀ q, f' !! q = f !! q ∨ (q ∈ qs ∧ f !! q = None ∧ f' !! q = Some Dir).
Proof.
  revert f. induction qs as [|q0 qs IH]; intros f; simpl.
  - intros [= <-] q. by left.
  - destruct (f !! q0) as [[|c]|] eqn:E; simpl.
    + rewrite insert_id by done. intros H q.
      destruct (IH _ H q) as [?|(? & ? & ?)]; [by left|]. right. split; [by right|done].
    + by rewrite mkdir_steps_raise.
    + intros H q. destruct (decide (q = q0)) as [->|Hne].
      * right. split; [by left|]. split; [done|].
        apply (mkdir_steps_dirs sqlite2duckdb attach_all_varchar) in H as (_ & H & _).
        apply H. apply lookup_insert_eq.
      * destruct (IH _ H q) as [Hq|(Hin & Hn & Hd)].
        -- left. by rewrite Hq, lookup_insert_ne.
        -- right. rewrite lookup_insert_ne in Hn by done. split; [by right|done].
Qed.





Lemma fallback_success (sqlite_db duck_db : path) (f f' : gmap path node) :
  fallback attach_all_varchar sqlite_db duck_db f = (f', None) →
  ∃ g tables, attach_all_varchar g sqlite_db = Some tables ∧
              f' !! duck_db = Some (File (DuckDB tables)).
Proof.
  unfold fallback, _safe_unlink, _convert_sqlite_to_duckdb_with_all_varchar.
  destruct (f !! duck_db) as [[|c]|] eqn:E; [done| |].
  - rewrite lookup_delete_eq.
    destruct (attach_all_varchar _ sqlite_db) as [tables|] eqn:Ea; [|done].
    intros [= <-]. eexists _, tables. split; [exact Ea|]. apply lookup_insert_eq.
  - rewrite E.
    destruct (attach_all_varchar _ sqlite_db) as [tables|] eqn:Ea; [|done].
    intros [= <-]. eexists _, tables. split; [exact Ea|]. apply lookup_insert_eq.
Qed.

(** X25: a conversion that is carried out (the target is missing, or
    overwriting is forced) and returns without an exception leaves a
    database at the target: one with at least one table that the
    importer wrote, or the tables of the all-varchar import.  For the
    database [european_football_2] it is always the latter. *)
Theorem convert_postcondition (sqlite_db duck_db : path) (force : bool)
    (f f' : gmap path node) :
  duck_db ≠ [] → force = true ∨ f !! duck_db = None →
  convert sqlite_db duck_db force f = (f', None) →
  ∃ tables, f' !! duck_db = Some (File (DuckDB tables)) ∧
    ((stem sqlite_db ≠ "european_football_2" ∧ tables ≠ [] ∧
      ∃ g, sqlite2duckdb g sqlite_db duck_db = (Some (DuckDB tables), true)) ∨
     ∃ g, attach_all_varchar g sqlite_db = Some tables).
Proof.
  intros Hne Hcase. unfold convert_sqlite_to_duckdb.
  destruct (mkdir_parents (parent duck_db) f) as [f1|] eqn:Em; [|done].
  assert (Hconv : ∀ f2, f2 !! duck_db = None →
    (if String.eqb (stem sqlite_db) "european_football_2"
     then fallback attach_all_varchar sqlite_db duck_db f2
     else
       let '(written, ok) := sqlite2duckdb f2 sqlite_db duck_db in
       let f3 := match written with
                 | Some c => <[duck_db := File c]> f2
                 | None => f2
                 end in
       if ok then
         match f3 !! duck_db with
         | Some (File (DuckDB (_ :: _))) => (f3, None)
         | _ => fallback attach_all_varchar sqlite_db duck_db f3
         end
       else fallback attach_all_varchar sqlite_db duck_db f3) = (f', None) →
    ∃ tables, f' !! duck_db = Some (File (DuckDB tables)) ∧
      ((stem sqlite_db ≠ "european_football_2" ∧ tables ≠ [] ∧
        ∃ g, sqlite2duckdb g sqlite_db duck_db = (Some (DuckDB tables), true)) ∨
       ∃ g, attach_all_varchar g sqlite_db = Some tables)).
  { intros f2 H2.
    assert (Hfb : ∀ f3, fallback attach_all_varchar sqlite_db duck_db f3 = (f', None) →
      ∃ tables, f' !! duck_db = Some (File (DuckDB tables)) ∧
        ((stem sqlite_db ≠ "european_football_2" ∧ tables ≠ [] ∧
          ∃ g, sqlite2duckdb g sqlite_db duck_db = (Some (DuckDB tables), true)) ∨
         ∃ g, attach_all_varchar g sqlite_db = Some tables)).
    { intros f3 (g & tables & Ha & Hl)%fallback_success. exists tables. split; [done|].
      right. by exists g. }
    destruct (String.eqb_spec (stem sqlite_db) "european_football_2") as [|Hs]; [apply Hfb|].
    destruct (sqlite2duckdb f2 sqlite_db duck_db) as [written ok] eqn:Ei. cbv zeta.
    destruct ok; [|apply Hfb].
    destruct written as [c|]; [|rewrite H2; apply Hfb].
    rewrite lookup_insert_eq. destruct c as [[|t ts]|raw]; try apply Hfb.
    intros [= <-]. exists (t :: ts). split; [apply lookup_insert_eq|].
    left. split; [done|]. split; [done|]. by exists f2. }
  assert (E1 : f1 !! duck_db = f !! duck_db).
  { destruct (mkdir_steps_files _ _ _ Em duck_db) as [?|(Hin & _)]; [done|].
    by apply not_above_itself in Hin. }
  destruct (f1 !! duck_db) as [n|] eqn:En.
  - destruct Hcase as [->|Hn]; [|congruence]. simpl.
    unfold _safe_unlink. rewrite En. destruct n as [|c]; [done|].
    apply Hconv. apply lookup_delete_eq.
  - by apply Hconv.
Qed.

End MigrationMore.

(** * The choice of query files *)

Section QueryFileFacts.
Import duckdb_pipeline.

Variable csv_reader : path → result (list (list string)).

#[local] Abbreviation keep := (keep_csv csv_reader).
#[local] Abbreviation hybrid := (λ p : path, PyStr.endswith "_HybridQueries.csv" (name p)).

Lemma filter_csvs_spec (by_name : gmap string path) (ps out : list path) :
  filter_csvs csv_reader by_name ps = Ok out →
  sublist out ps ∧
  (∀ p, p ∈ ps → keep by_name p = Ok true → p ∈ out) ∧
  (∀ p, p ∈ ps → p ∉ out → keep by_name p = Ok false).
Proof.
  revert out. induction ps as [|p ps IH]; intros out; simpl.
  - intros [= <-]. split; [done|]. split; by intros ? ?%elem_of_nil.
  - destruct (keep by_name p) as [b|] eqn:Ek; simpl; [|done].
    destruct (filter_csvs csv_reader by_name ps) as [rest|]; simpl; [|done].
    intros [= <-]. destruct (IH rest eq_refl) as (Hs & Hin & Hout).
    destruct b.
    + split; [by apply sublist_skip|]. split.
      * intros q [->|Hq]%elem_of_cons Hk; [by left|]. right. by apply Hin.
      * intros q [->|Hq]%elem_of_cons Hn; [exfalso; apply Hn; by left|].
        apply Hout; [done|]. intros ?. apply Hn. by right.
    + split; [by apply sublist_cons|]. split.
      * intros q [->|Hq]%elem_of_cons Hk; [congruence|]. by apply Hin.
      * intros q [->|Hq]%elem_of_cons Hn; [done|]. by apply Hout.
Qed.

Lemma filter_csvs_plain (by_name : gmap string path) (ps : list path) :
  Forall (λ p, hybrid p = false) ps → filter_csvs csv_reader by_name ps = Ok ps.
Proof.
  induction 1 as [|p ps Hp _ IH]; [done|]. simpl.
  unfold keep_csv at 1. rewrite Hp. simpl. by rewrite IH.
Qed.

Lemma by_name_member (ps : list path) (k : string) (q : path) :
  by_name_of ps !! k = Some q → q ∈ ps ∧ name q = k.
Proof.
  unfold by_name_of. intros H.
  apply (fold_insert_lookup name id) in H as [H|(x & Hx & Hk & <-)];
    [by rewrite lookup_empty in H|done].
Qed.

Lemma keep_false (by_name : gmap string path) (p : path) :
  keep by_name p = Ok false →
  hybrid p = true ∧
  ∃ q rows, by_name !! PyStr.replace "_HybridQueries.csv" "Queries.csv" (name p) = Some q ∧
            gold_rows csv_reader p = Ok rows ∧ gold_rows csv_reader q = Ok rows.
Proof.
  unfold keep_csv. destruct (hybrid p); [|done]. simpl.
  destruct (by_name !! _) as [q|] eqn:Eq; [|done].
  destruct (gold_rows csv_reader p) as [mine|] eqn:Em; simpl; [|done].
  destruct (gold_rows csv_reader q) as [theirs|] eqn:Et; simpl; [|done].
  destruct (decide (mine = theirs)) as [<-|Hne].
  - intros _. split; [done|]. by exists q, mine.
  - by rewrite (bool_decide_eq_false_2 _ Hne).
Qed.

(** X26: [_filter_query_csvs] keeps the order of the paths and never drops
    a file that is not a hybrid file; it drops a hybrid file only when
    the list holds a file under the counterpart name whose rows name the
    same databases and gold queries in the same order.  A list without
    hybrid files is returned as it is, whatever the files hold. *)
Theorem hybrid_files_filtered (csv_paths : list path) :
  (Forall (λ p, PyStr.endswith "_HybridQueries.csv" (name p) = false) csv_paths →
   _filter_query_csvs csv_reader csv_paths = Ok csv_paths) ∧
  (∀ out, _filter_query_csvs csv_reader csv_paths = Ok out →
     sublist out csv_paths ∧
     (∀ p, p ∈ csv_paths → PyStr.endswith "_HybridQueries.csv" (name p) = false → p ∈ out) ∧
     (∀ p, p ∈ csv_paths → p ∉ out →
        PyStr.endswith "_HybridQueries.csv" (name p) = true ∧
        ∃ q rows, q ∈ csv_paths ∧
          name q = PyStr.replace "_HybridQueries.csv" "Queries.csv" (name p) ∧
          gold_rows csv_reader p = Ok rows ∧ gold_rows csv_reader q = Ok rows)).
Proof.
  split; [apply filter_csvs_plain|].
  intros out H. unfold _filter_query_csvs in H.
  apply filter_csvs_spec in H as (Hs & Hin & Hout). split; [done|]. split.
  - intros p Hp Hh. apply Hin; [done|]. unfold keep_csv. by rewrite Hh.
  - intros p Hp Hn. specialize (Hout p Hp Hn).
    apply keep_false in Hout as (Hh & q & rows & Eq & Hr & Hq). split; [done|].
    apply by_name_member in Eq as [Hqin Hname]. by exists q, rows.
Qed.

End QueryFileFacts.

(** * Quoted identifiers *)

Section QuotingFacts.
Import Py duckdb_pipeline.

#[local] Abbreviation q1 := (String dquote "").
#[local] Abbreviation q2 := (String dquote (String dquote "")).

Lemma replace_quote_step (c : ascii) (s : string) :
  PyStr.replace_from q1 q2 0 (String c s) =
  if Ascii.eqb c dquote
  then String dquote (String dquote (PyStr.replace_from q1 q2 0 s))
  else String c (PyStr.replace_from q1 q2 0 s).
Proof.
  cbn [PyStr.replace_from String.prefix String.length Nat.sub].
  destruct (ascii_dec dquote c) as [<-|Hne].
  - rewrite Ascii.eqb_refl. by destruct s.
  - destruct (Ascii.eqb_spec c dquote) as [->|_]; [done|]. done.
Qed.

Lemma read_escaped (s rest : string) :
  PyStr.startswith q1 rest = false →
  read_delimited_body ((PyStr.replace q1 q2 s +:+ q1) +:+ rest) = Some (s, rest).
Proof.
  intros Hr. unfold PyStr.replace. induction s as [|c s IH].
  - change (read_delimited_body (String dquote rest) = Some ("", rest)).
    cbn [read_delimited_body]. rewrite Ascii.eqb_refl.
    destruct rest as [|c' rest]; [done|].
    unfold PyStr.startswith in Hr. cbn [String.prefix] in Hr.
    destruct (ascii_dec dquote c') as [<-|Hne]; [by destruct rest|].
    destruct (Ascii.eqb_spec c' dquote) as [->|_]; done.
  - rewrite replace_quote_step. destruct (Ascii.eqb_spec c dquote) as [->|Hne].
    + change (read_delimited_body
                (String dquote (String dquote
                   ((PyStr.replace_from q1 q2 0 s +:+ q1) +:+ rest))) =
              Some (String dquote s, rest)).
      cbn [read_delimited_body]. rewrite !Ascii.eqb_refl. by rewrite IH.
    + change (read_delimited_body
                (String c ((PyStr.replace_from q1 q2 0 s +:+ q1) +:+ rest)) =
              Some (String c s, rest)).
      cbn [read_delimited_body]. apply Ascii.eqb_neq in Hne. rewrite Hne. by rewrite IH.
Qed.

(** X27: an identifier quoted by [_dq] is read back as that identifier,
    whatever characters it holds, and the text that follows it is left
    as it is: a quote inside a name cannot end the name. *)
Theorem quoted_identifier_read_back (ident rest : string) :
  PyStr.startswith (String dquote "") rest = false →
  read_delimited (_dq ident +:+ rest) = Some (ident, rest).
Proof.
  intros Hr. unfold _dq.
  change (read_delimited
            (String dquote ((PyStr.replace q1 q2 ident +:+ q1) +:+ rest)) = Some (ident, rest)).
  cbn [read_delimited]. rewrite Ascii.eqb_refl. by apply read_escaped.
Qed.

End QuotingFacts.

Lemma quoted_identifier_read_back_witness :
  duckdb_pipeline.read_delimited
    (duckdb_pipeline._dq (String "a" (String Py.dquote "b")) +:+ " SET x = NULL") =
  Some (String "a" (String Py.dquote "b"), " SET x = NULL").
Proof.
  apply (quoted_identifier_read_back (String "a" (String Py.dquote "b")) " SET x = NULL").
  reflexivity.
Defined.

(** * Further examples *)

Section FurtherExamples.
Import Py Engine duckdb_pipeline.





Lemma evaluated_databases_witness :
  ∃ s, by_db Scenario.the_baseline !! "db1" = Some s ∧
       (1 ≤ total s)%nat ∧
       (only_db Scenario.args ≠ "" → "db1" = only_db Scenario.args) ∧
       ∃ item, item ∈ numbered Scenario.csvs ∧ (item_key item).1 = "db1".
Proof.
  assert (E : _evaluate Scenario.repr Scenario.transpile Scenario.sqlite_is_file Scenario.sqlite_execute
                Scenario.duck_is_file Scenario.duck_execute Scenario.args Scenario.expected Scenario.csvs []
                "baseline" None true false = Ok Scenario.the_baseline).
  { vm_compute. reflexivity. }
  assert (Es : by_db Scenario.the_baseline !! "db1" =
               Some {| total := 3; correct := 1; exec_errors := 1;
                       transpile_errors := 0; mismatches := 1 |}).
  { vm_compute. reflexivity. }
  eexists. split; [exact Es|].
  exact (evaluated_databases Scenario.repr Scenario.transpile Scenario.sqlite_is_file
           Scenario.sqlite_execute Scenario.duck_is_file Scenario.duck_execute Scenario.args
           Scenario.expected Scenario.csvs [] "baseline" None true false Scenario.the_baseline E
           "db1" _ Es).
Defined.




Lemma convert_postcondition_witness :
  ∃ tables,
    (convert_sqlite_to_duckdb Scenario.importer Scenario.attach Scenario.source
       Scenario.fresh false Scenario.disk).1 !! Scenario.fresh = Some (File (DuckDB tables)) ∧
    ((stem Scenario.source ≠ "european_football_2" ∧ tables ≠ [] ∧
      ∃ g, Scenario.importer g Scenario.source Scenario.fresh = (Some (DuckDB tables), true)) ∨
     ∃ g, Scenario.attach g Scenario.source = Some tables).
Proof.
  apply (convert_postcondition Scenario.importer Scenario.attach Scenario.source Scenario.fresh
           false Scenario.disk).
  - discriminate.
  - right. vm_compute. reflexivity.
  - rewrite (surjective_pairing (convert_sqlite_to_duckdb _ _ _ _ _ _)). f_equal.
Defined.

(** The choice of query files on a directory: a hybrid file with the gold
    queries of its counterpart is left out, one without a counterpart is
    kept and not read. *)
Example hybrid_files :
  _filter_query_csvs Fixtures.reader [Fixtures.plain_csv; Fixtures.hybrid_csv] =
    Ok [Fixtures.plain_csv] ∧
  _filter_query_csvs Fixtures.reader [Fixtures.plain_csv; Fixtures.lone_csv] =
    Ok [Fixtures.plain_csv; Fixtures.lone_csv] ∧
  _filter_query_csvs Fixtures.reader [Fixtures.hybrid_csv] = Ok [Fixtures.hybrid_csv].
Proof. repeat split; vm_compute; reflexivity. Qed.

End FurtherExamples.
